(** * Password Strength Analyzer: the scoring engine and the generator of app.py

    A shallow embedding of [analyze_password] (app.py, lines 76-134), of
    [create_gauge] (lines 137-162) and of [main] (lines 164-216) with its
    generator branch (lines 174-178), with the properties of the
    specification, and further properties of the code, proved about them.

    Conventions of the embedding.
    - A Python [str] is a list of Unicode code points ([N]); Python integers
      are [Z].
    - What the Python runtime decides from its Unicode database outside ASCII
      (which characters [\d] matches, what [str.lower] returns) is the record
      [unicode_data]; every theorem holds for every such record, and on ASCII
      text the library functions are written out.
    - [math.log2] is the base-2 logarithm over the reals; the rounding of the
      floating-point product is not modelled.
    - [secrets.choice] reads a source of random naturals, one per draw.
    - The numbers of the gauge are binary64 floats, and a page is the list of
      the elements that one run of the script shows, in order. *)

From Stdlib Require Import List ZArith NArith QArith Reals Lra Lia Bool.
From Stdlib Require Import String Ascii DecimalString DecimalPos DecimalZ.
From Stdlib Require Import Floats Uint63.
Import ListNotations.

Open Scope Z_scope.

(** ** Python values *)

Definition char := N.
Definition str := list char.

(** The code point of an ASCII character, and the [str] of an ASCII literal. *)
Definition ord (a : ascii) : char := N_of_ascii a.
Definition codes (s : string) : str := map ord (list_ascii_of_string s).

(** The double quote, which a literal above cannot hold. *)
Definition dquote : char := 34%N.

Definition len {A} (l : list A) : Z := Z.of_nat (List.length l).

Definition is_ascii (c : char) : bool := (c <? 128)%N.

(** What the interpreter's Unicode database answers for text that is not
    ASCII: the decimal digits (category Nd) and the lowercase form of a
    string. *)
Record unicode_data := {
  is_decimal : char -> bool;
  lower_full : str -> str
}.

(** A database that knows no character beyond ASCII. *)
Definition ascii_only : unicode_data :=
  {| is_decimal := fun _ => false; lower_full := fun s => s |}.

(** ** The part of [re] the program uses: one character class, or [\d] *)

Inductive class_item :=
| Lit (c : char)
| Range (lo hi : char).

(** The body of a bracketed class: a backslash escapes the next character
    (the program escapes a bracket only, no class shorthand), [lo-hi] is a
    range, anything else is itself. *)
Fixpoint parse_class (body : str) : list class_item :=
  match body with
  | [] => []
  | 92%N :: c :: rest => Lit c :: parse_class rest
  | lo :: 45%N :: hi :: rest => Range lo hi :: parse_class rest
  | c :: rest => Lit c :: parse_class rest
  end.

Definition item_matches (it : class_item) (c : char) : bool :=
  match it with
  | Lit d => (c =? d)%N
  | Range lo hi => ((lo <=? c) && (c <=? hi))%N
  end.

Definition in_class (items : list class_item) (c : char) : bool :=
  existsb (fun it => item_matches it c) items.

Inductive regex :=
| Class (body : str)
| Digit.

Definition re_matches (U : unicode_data) (r : regex) (c : char) : bool :=
  match r with
  | Class body => in_class (parse_class body) c
  | Digit => if is_ascii c then in_class [Range (ord "0") (ord "9")] c
             else is_decimal U c
  end.

(** [bool(re.search(r, s))] for a pattern that is one character wide. *)
Definition re_search (U : unicode_data) (r : regex) (s : str) : bool :=
  existsb (re_matches U r) s.

(** ** The part of [str] the program uses *)

Definition ascii_lower (c : char) : char :=
  if ((ord "A" <=? c) && (c <=? ord "Z"))%N then (c + 32)%N else c.

Definition lower (U : unicode_data) (s : str) : str :=
  if forallb is_ascii s then map ascii_lower s else lower_full U s.

Fixpoint startswith (p s : str) : bool :=
  match p, s with
  | [], _ => true
  | _ :: _, [] => false
  | a :: p', b :: s' => (a =? b)%N && startswith p' s'
  end.

(** [p in s] on strings. *)
Fixpoint contains (p s : str) : bool :=
  startswith p s ||
  match s with
  | [] => false
  | _ :: s' => contains p s'
  end.

(** [set(s)], as the list of the distinct characters of [s]. *)
Definition set (s : str) : list char := nodup N.eq_dec s.

(** [math.log2]. *)
Definition log2 (x : R) : R := (ln x / ln 2)%R.

(** ** analyze_password *)

Module criteria.
Record t := mk {
  length : bool;
  uppercase : bool;
  lowercase : bool;
  digits : bool;
  special : bool
}.
End criteria.

Inductive tier := Weak | Moderate | Strong | Excellent.

(** The pair the source binds to [strength]: the label and its CSS class. *)
Definition strength_pair (t : tier) : string * string :=
  match t with
  | Weak => ("Weak", "strength-weak")
  | Moderate => ("Moderate", "strength-moderate")
  | Strong => ("Strong", "strength-strong")
  | Excellent => ("Excellent", "strength-excellent")
  end%string.

(** The locals that the checks of lines 106-132 update. *)
Record locals := {
  score : Z;
  suggestions : list string
}.

Definition append (m : string) (st : locals) : locals :=
  {| score := score st; suggestions := suggestions st ++ [m] |}.

Definition set_score (v : Z) (st : locals) : locals :=
  {| score := v; suggestions := suggestions st |}.

Definition special_class : str :=
  codes "!@#$%^&*(),.?" ++ [dquote] ++ codes ":{}|<>[\]".

Definition common_patterns : list str :=
  [codes "password"; codes "1234"; codes "qwerty"; codes "admin"].

Definition msg_common : string := "Avoid common passwords or predictable patterns".
Definition msg_repetition : string := "Reduce character repetition".
Definition msg_length : string := "Use 12+ characters for better security".
Definition msg_uppercase : string := "Add uppercase letters (A-Z)".
Definition msg_lowercase : string := "Add lowercase letters (a-z)".
Definition msg_digits : string := "Include numbers (0-9)".
Definition msg_special : string := "Add special characters (!@#$%^&*)".

Definition Qltb (x y : Q) : bool := negb (Qle_bool y x).
Definition Rltb (x y : R) : bool := if Rlt_dec x y then true else false.

Section Analyzer.

Variable U : unicode_data.

(** Lines 80-86. *)
Definition evaluate_criteria (password : str) : criteria.t :=
  {| criteria.length := 12 <=? len password;
     criteria.uppercase := re_search U (Class (codes "A-Z")) password;
     criteria.lowercase := re_search U (Class (codes "a-z")) password;
     criteria.digits := re_search U Digit password;
     criteria.special := re_search U (Class special_class) password |}.

(** Lines 89-93. *)
Definition char_pool (c : criteria.t) : Z :=
  let char_pool := 0 in
  let char_pool := if criteria.uppercase c then char_pool + 26 else char_pool in
  let char_pool := if criteria.lowercase c then char_pool + 26 else char_pool in
  let char_pool := if criteria.digits c then char_pool + 10 else char_pool in
  let char_pool := if criteria.special c then char_pool + 32 else char_pool in
  char_pool.

(** Lines 78 and 96-97. *)
Definition entropy_of (password : str) (c : criteria.t) : R :=
  if 0 <? char_pool c
  then (IZR (len password) * log2 (IZR (char_pool c)))%R
  else 0%R.

(** Lines 77 and 100-104: the additive score. *)
Definition additive_score (password : str) (c : criteria.t) : Z :=
  let score := 0 in
  let score := score + Z.min (len password * 2) 30 in
  let score := if criteria.uppercase c then score + 15 else score in
  let score := if criteria.lowercase c then score + 15 else score in
  let score := if criteria.digits c then score + 20 else score in
  let score := if criteria.special c then score + 20 else score in
  score.

(** The condition of line 108. *)
Definition has_common_pattern (password : str) : bool :=
  existsb (fun pattern => contains pattern (lower U password)) common_patterns.

(** Lines 107-110. *)
Definition common_check (password : str) (st : locals) : locals :=
  if has_common_pattern password
  then append msg_common (set_score (Z.max 10 (score st - 40)) st)
  else st.

(** The condition of line 113: an integer compared with a true division,
    which is exact for every length a string can have. *)
Definition is_repetitive (password : str) : bool :=
  Qltb (inject_Z (len (set password))) (inject_Z (len password) / 2).

(** Lines 113-115. *)
Definition repetition_check (password : str) (st : locals) : locals :=
  if is_repetitive password
  then set_score (Z.max 20 (score st - 20)) (append msg_repetition st)
  else st.

(** Lines 118-125. *)
Definition classify (score : Z) (entropy : R) : tier :=
  if (score <? 40) || Rltb entropy 30 then Weak
  else if (score <? 70) || Rltb entropy 50 then Moderate
  else if (score <? 90) || Rltb entropy 70 then Strong
  else Excellent.

(** Lines 128-132. *)
Definition missing_criteria (c : criteria.t) (st : locals) : locals :=
  let st := if negb (criteria.length c) then append msg_length st else st in
  let st := if negb (criteria.uppercase c) then append msg_uppercase st else st in
  let st := if negb (criteria.lowercase c) then append msg_lowercase st else st in
  let st := if negb (criteria.digits c) then append msg_digits st else st in
  let st := if negb (criteria.special c) then append msg_special st else st in
  st.

(** The state of the locals after each block of the function body. *)
Definition after_scoring (password : str) : locals :=
  {| score := additive_score password (evaluate_criteria password);
     suggestions := [] |}.

Definition after_common (password : str) : locals :=
  common_check password (after_scoring password).

Definition after_repetition (password : str) : locals :=
  repetition_check password (after_common password).

Definition analyze_password (password : str)
  : Z * R * criteria.t * list string * (string * string) :=
  let criteria := evaluate_criteria password in
  let entropy := entropy_of password criteria in
  let st := after_repetition password in
  let strength := strength_pair (classify (score st) entropy) in
  let st := missing_criteria criteria st in
  (score st, entropy, criteria, suggestions st, strength).

End Analyzer.

(** The five components of the result. *)
Definition result_score (r : Z * R * criteria.t * list string * (string * string)) : Z :=
  let '(s, _, _, _, _) := r in s.
Definition result_entropy (r : Z * R * criteria.t * list string * (string * string)) : R :=
  let '(_, e, _, _, _) := r in e.
Definition result_criteria (r : Z * R * criteria.t * list string * (string * string)) : criteria.t :=
  let '(_, _, c, _, _) := r in c.
Definition result_suggestions (r : Z * R * criteria.t * list string * (string * string)) : list string :=
  let '(_, _, _, l, _) := r in l.
Definition result_strength (r : Z * R * criteria.t * list string * (string * string)) : string * string :=
  let '(_, _, _, _, t) := r in t.

(** ** The generator: the sidebar branch of [main], lines 174-178 *)

(** The constants of Python's [string] module that line 177 reads. *)
Module pystring.
Definition ascii_lowercase : str := codes "abcdefghijklmnopqrstuvwxyz".
Definition ascii_uppercase : str := codes "ABCDEFGHIJKLMNOPQRSTUVWXYZ".
Definition ascii_letters : str := ascii_lowercase ++ ascii_uppercase.
Definition digits : str := codes "0123456789".
Definition punctuation : str :=
  codes "!" ++ [dquote] ++ codes "#$%&'()*+,-./:;<=>?@[\]^_`{|}~".
End pystring.

(** The exception the modelled library code can raise. *)
Inductive exn := IndexError.

Inductive outcome (A : Type) :=
| Returned (a : A)
| Raised (e : exn).
Arguments Returned {A} a.
Arguments Raised {A} e.

(** A computation that draws from the random source: the state is the number
    of draws made so far. *)
Definition M (A : Type) : Type := nat -> outcome A * nat.

Definition ret {A} (a : A) : M A := fun k => (Returned a, k).

Definition bind {A B} (m : M A) (f : A -> M B) : M B :=
  fun k =>
    match m k with
    | (Returned a, k') => f a k'
    | (Raised e, k') => (Raised e, k')
    end.

Notation "x <- m ;; f" := (bind m (fun x => f))
  (at level 61, m at next level, right associativity).

Section Generator.

(** The raw value of each draw of the operating system's random source. *)
Variable source : nat -> nat.

(** [secrets.choice(seq)]: the element at an index below [len(seq)], here
    the raw draw reduced modulo the length (every index can come out, and
    nothing else), or IndexError on an empty sequence.  The library draws
    again when a raw value is out of range: how many values it reads from the
    operating system is not what the counter of this model says. *)
Definition choice (seq : str) : M char :=
  fun k =>
    match seq with
    | [] => (Raised IndexError, k)
    | c :: _ => (Returned (nth (source k mod List.length seq) seq c), S k)
    end.

(** [''.join(secrets.choice(chars) for _ in range(n))], draw after draw. *)
Fixpoint join_choices (n : nat) (chars : str) : M str :=
  match n with
  | O => ret []
  | S n' =>
      c <- choice chars ;;
      rest <- join_choices n' chars ;;
      ret (c :: rest)
  end.

(** Line 177. *)
Definition chars (include_special : bool) : str :=
  pystring.ascii_letters ++ pystring.digits ++
  (if include_special then pystring.punctuation else []).

(** Lines 177-178; [range(length)] is empty when [length <= 0]. *)
Definition generate (length : Z) (include_special : bool) : M str :=
  let chars := chars include_special in
  join_choices (Z.to_nat length) chars.

End Generator.

(** ** Notions the statements below use *)

(** The order of the strength tiers, weakest first. *)
Definition tier_rank (t : tier) : Z :=
  match t with
  | Weak => 0
  | Moderate => 1
  | Strong => 2
  | Excellent => 3
  end.

Definition tier_le (a b : tier) : Prop := tier_rank a <= tier_rank b.

(** The tier that the score alone, and the entropy alone, would allow. *)
Definition score_tier (score : Z) : tier :=
  if score <? 40 then Weak
  else if score <? 70 then Moderate
  else if score <? 90 then Strong
  else Excellent.

Definition entropy_tier (entropy : R) : tier :=
  if Rltb entropy 30 then Weak
  else if Rltb entropy 50 then Moderate
  else if Rltb entropy 70 then Strong
  else Excellent.

(** [p] occurs in [s] as a run of consecutive characters. *)
Definition is_substring (p s : str) : Prop :=
  exists pre post, s = pre ++ p ++ post.

(** The lowercase form of the password contains a pattern of the denylist. *)
Definition lower_has_common_pattern (U : unicode_data) (password : str) : Prop :=
  exists pattern, In pattern common_patterns /\ is_substring pattern (lower U password).

(** The characters that the class of the special criterion matches. *)
Definition special_characters : str :=
  codes "!@#$%^&*(),.?" ++ [dquote] ++ codes ":{}|<>[]".


(** Membership in a string, decided. *)
Definition mem (c : char) (s : str) : bool := existsb (N.eqb c) s.

(** ** create_gauge, lines 137-162 *)

(** The numbers of the figure are binary64 floats, as in Python. An integer
    that meets a float in a product is converted first; the conversion is
    exact below 2^53 in absolute value, far above any score. *)
Definition float_of_int (n : Z) : float :=
  match n with
  | Z0 => 0%float
  | Zpos _ => PrimFloat.of_uint63 (Uint63.of_Z n)
  | Zneg _ => PrimFloat.opp (PrimFloat.of_uint63 (Uint63.of_Z (- n)))
  end.

(** [a / b] on two integers is the float nearest to the quotient: for
    integers that convert exactly, the quotient of their floats. *)
Definition true_divide (a b : Z) : float :=
  (float_of_int a / float_of_int b)%float.

Inductive colour :=
| Named (name : string)
| RdYlGn (x : float).

Inductive patch :=
| Circle (center : float * float) (radius : float) (color : colour)
| Wedge (center : float * float) (r theta1 theta2 width : float) (color : colour).

Record figure := {
  patches : list patch;
  texts : list (float * float * string);
  xlim : float * float;
  ylim : float * float
}.

(** The text of an integer in an f-string. *)
Definition format_int (n : Z) : string := NilZero.string_of_int (Z.to_int n).

(** [n * 3.6], line 148. *)
#[warnings="-inexact-float"]
Definition times_3_6 (n : Z) : float := (float_of_int n * 3.6)%float.

#[warnings="-inexact-float"]
Definition create_gauge (score : Z) : figure :=
  let color := RdYlGn (true_divide score 100) in
  let background := Circle (0, 0)%float 0.9%float (Named "#f0f0f0") in
  let progress :=
    Wedge (0, 0)%float 0.9%float 0%float (times_3_6 score) 0.2%float color in
  let inner := Circle (0, 0)%float 0.7%float (Named "white") in
  {| patches := [background; progress; inner];
     texts := [(0, 0, format_int score); (0, -0.2, "SCORE"%string)]%float;
     xlim := (-1, 1)%float;
     ylim := (-1, 1)%float |}.

(** The end angle of the ring segment of a figure and the point at which its
    colour is sampled. *)
Definition progress_of (fig : figure) : option (float * float) :=
  match patches fig with
  | [_; Wedge _ _ _ theta2 _ (RdYlGn x); _] => Some (theta2, x)
  | _ => None
  end.

(** The scores 0 to 100. *)
Definition scores : list Z := map Z.of_nat (seq 0 101).

(** ** main, lines 164-216 *)

(** What the widgets hand back in one run of the script. *)
Record widgets := {
  slider : Z;
  checkbox : bool;
  button : bool;
  text_input : str
}.

Inductive column := col_a | col_b.

(** A metric shows an integer, or a number with one decimal. *)
Inductive metric_value :=
| int_value (n : Z)
| one_decimal (x : R).

(** The calls that put something on the page, in the order they are made;
    the static markup is named, not spelled out. *)
Inductive element :=
| stylesheet
| page_title
| page_subtitle
| sidebar_header (title : string)
| code (body : str)
| pyplot (fig : figure)
| strength_meter (text class : string)
| card_open
| card_close
| subheader (title : string)
| metric (col : column) (label : string) (value : metric_value)
| write_check (key : string) (value : bool)
| suggestion_box (s : string).

(** Truth value of a sequence: it is not empty. *)
Definition truthy {A} (l : list A) : bool :=
  match l with
  | [] => false
  | _ :: _ => true
  end.

(** [str.capitalize] on an ASCII key. *)
Definition upper_letter (a : ascii) : ascii :=
  let n := N_of_ascii a in
  if ((97 <=? n) && (n <=? 122))%N then ascii_of_N (n - 32) else a.

Definition lower_letter (a : ascii) : ascii :=
  let n := N_of_ascii a in
  if ((65 <=? n) && (n <=? 90))%N then ascii_of_N (n + 32) else a.

Fixpoint lower_letters (s : string) : string :=
  match s with
  | EmptyString => EmptyString
  | String a rest => String (lower_letter a) (lower_letters rest)
  end.

Definition capitalize (s : string) : string :=
  match s with
  | EmptyString => EmptyString
  | String a rest => String (upper_letter a) (lower_letters rest)
  end.

(** [criteria.items()], in the order the dictionary was written. *)
Definition items (c : criteria.t) : list (string * bool) :=
  [("length", criteria.length c); ("uppercase", criteria.uppercase c);
   ("lowercase", criteria.lowercase c); ("digits", criteria.digits c);
   ("special", criteria.special c)]%string.

Section Main.

Variable U : unicode_data.
Variable source : nat -> nat.

(** Lines 172-179. *)
Definition sidebar (w : widgets) : M (list element) :=
  let length := slider w in
  let include_special := checkbox w in
  if button w
  then password <- generate source length include_special ;;
       ret [sidebar_header "Password Generator"; code password]
  else ret [sidebar_header "Password Generator"].

(** Lines 184-191: the first column. *)
Definition first_column (password : str) : list element :=
  if truthy password
  then
    let r := analyze_password U password in
    let '(strength_text, strength_class) := result_strength r in
    [pyplot (create_gauge (result_score r));
     strength_meter strength_text strength_class]
  else [].

(** Lines 193-216: the second column. *)
Definition second_column (password : str) : list element :=
  if truthy password
  then
    let r := analyze_password U password in
    let suggestions := result_suggestions r in
    [card_open; subheader "Security Metrics";
     metric col_a "Entropy (bits)" (one_decimal (result_entropy r));
     metric col_a "Length" (int_value (len password));
     metric col_b "Score (0-100)" (int_value (result_score r));
     metric col_b "Unique Chars" (int_value (len (set password)));
     subheader "Criteria Check"]
    ++ map (fun kv => write_check (capitalize (fst kv)) (snd kv))
           (items (result_criteria r))
    ++ (if truthy suggestions
        then subheader "Security Recommendations" :: map suggestion_box suggestions
        else [])
    ++ [card_close]
  else [].

Definition main (w : widgets) : M (list element) :=
  side <- sidebar w ;;
  let password := text_input w in
  ret ([stylesheet; page_title; page_subtitle] ++ side
       ++ first_column password ++ second_column password).

End Main.

(** What a page shows, by kind of element. *)
Definition shown_codes (page : list element) : list str :=
  flat_map (fun e => match e with code body => [body] | _ => [] end) page.

Definition shown_gauges (page : list element) : list figure :=
  flat_map (fun e => match e with pyplot fig => [fig] | _ => [] end) page.

Definition shown_metrics (page : list element) : list (string * metric_value) :=
  flat_map (fun e => match e with metric _ label v => [(label, v)] | _ => [] end) page.

Definition shown_checks (page : list element) : list (string * bool) :=
  flat_map (fun e => match e with write_check key v => [(key, v)] | _ => [] end) page.

Definition shown_suggestions (page : list element) : list string :=
  flat_map (fun e => match e with suggestion_box s => [s] | _ => [] end) page.

Definition shown_subheaders (page : list element) : list string :=
  flat_map (fun e => match e with subheader title => [title] | _ => [] end) page.

(** * Properties *)

(** ** Arithmetic of the score *)

Lemma len_nonneg {A} (l : list A) : 0 <= len l.
Proof. unfold len. lia. Qed.

Lemma additive_score_bounds (password : str) (c : criteria.t) :
  0 <= additive_score password c <= 100.
Proof.
  pose proof (len_nonneg password).
  unfold additive_score.
  destruct c as [l u lo d s]; cbn [criteria.uppercase criteria.lowercase
    criteria.digits criteria.special].
  destruct u, lo, d, s; lia.
Qed.

Lemma score_missing_criteria (c : criteria.t) (st : locals) :
  score (missing_criteria c st) = score st.
Proof.
  unfold missing_criteria.
  destruct (criteria.length c), (criteria.uppercase c), (criteria.lowercase c),
    (criteria.digits c), (criteria.special c); reflexivity.
Qed.

Lemma suggestions_missing_criteria (c : criteria.t) (st : locals) :
  suggestions (missing_criteria c st) =
  suggestions st
  ++ (if criteria.length c then [] else [msg_length])
  ++ (if criteria.uppercase c then [] else [msg_uppercase])
  ++ (if criteria.lowercase c then [] else [msg_lowercase])
  ++ (if criteria.digits c then [] else [msg_digits])
  ++ (if criteria.special c then [] else [msg_special]).
Proof.
  unfold missing_criteria.
  destruct (criteria.length c), (criteria.uppercase c), (criteria.lowercase c),
    (criteria.digits c), (criteria.special c); cbn [negb append suggestions];
    repeat rewrite <- app_assoc; cbn [app]; rewrite ?app_nil_r; reflexivity.
Qed.

Lemma common_check_eq (U : unicode_data) (password : str) (st : locals) :
  common_check U password st =
  if has_common_pattern U password
  then {| score := Z.max 10 (score st - 40);
          suggestions := suggestions st ++ [msg_common] |}
  else st.
Proof. unfold common_check. destruct (has_common_pattern U password); reflexivity. Qed.

Lemma repetition_check_eq (password : str) (st : locals) :
  repetition_check password st =
  if is_repetitive password
  then {| score := Z.max 20 (score st - 20);
          suggestions := suggestions st ++ [msg_repetition] |}
  else st.
Proof. unfold repetition_check. destruct (is_repetitive password); reflexivity. Qed.

Lemma common_check_range (U : unicode_data) (password : str) (st : locals) :
  0 <= score st <= 100 -> 0 <= score (common_check U password st) <= 100.
Proof.
  intros H. rewrite common_check_eq.
  destruct (has_common_pattern U password); cbn [score]; lia.
Qed.

Lemma repetition_check_range (password : str) (st : locals) :
  0 <= score st <= 100 -> 0 <= score (repetition_check password st) <= 100.
Proof.
  intros H. rewrite repetition_check_eq.
  destruct (is_repetitive password); cbn [score]; lia.
Qed.

(** The components of the tuple that [analyze_password] returns. *)
Lemma result_score_eq (U : unicode_data) (password : str) :
  result_score (analyze_password U password) = score (after_repetition U password).
Proof. unfold analyze_password, result_score. apply score_missing_criteria. Qed.

Lemma result_entropy_eq (U : unicode_data) (password : str) :
  result_entropy (analyze_password U password) =
  entropy_of password (evaluate_criteria U password).
Proof. reflexivity. Qed.

Lemma result_criteria_eq (U : unicode_data) (password : str) :
  result_criteria (analyze_password U password) = evaluate_criteria U password.
Proof. reflexivity. Qed.

Lemma result_suggestions_eq (U : unicode_data) (password : str) :
  result_suggestions (analyze_password U password) =
  suggestions (missing_criteria (evaluate_criteria U password)
                 (after_repetition U password)).
Proof. reflexivity. Qed.

Lemma result_strength_eq (U : unicode_data) (password : str) :
  result_strength (analyze_password U password) =
  strength_pair (classify (result_score (analyze_password U password))
                          (result_entropy (analyze_password U password))).
Proof.
  rewrite result_score_eq, result_entropy_eq. reflexivity.
Qed.

(** ** The base-2 logarithm *)

Lemma ln_2_pos : (0 < ln 2)%R.
Proof. rewrite <- ln_1. apply ln_increasing; lra. Qed.

Lemma log2_nonneg (x : R) : (1 <= x)%R -> (0 <= log2 x)%R.
Proof.
  intros Hx. unfold log2.
  assert (0 <= ln x)%R.
  { destruct Hx as [Hlt | <-].
    - left. rewrite <- ln_1. apply ln_increasing; lra.
    - rewrite ln_1. lra. }
  pose proof ln_2_pos.
  apply Rmult_le_pos; [assumption|]. left. now apply Rinv_0_lt_compat.
Qed.

Lemma entropy_of_nonneg (password : str) (c : criteria.t) :
  (0 <= entropy_of password c)%R.
Proof.
  unfold entropy_of. destruct (0 <? char_pool c) eqn:E; [|lra].
  apply Z.ltb_lt in E.
  apply Rmult_le_pos.
  - apply IZR_le. apply len_nonneg.
  - apply log2_nonneg. apply IZR_le. lia.
Qed.

(** C1. For every input string, the score that analyze_password returns is an
    integer between 0 and 100, and the entropy it returns is not negative. *)
Theorem analyze_score_entropy_range (U : unicode_data) (password : str) :
  0 <= result_score (analyze_password U password) <= 100 /\
  (0 <= result_entropy (analyze_password U password))%R.
Proof.
  split.
  - rewrite result_score_eq. unfold after_repetition, after_common.
    apply repetition_check_range, common_check_range.
    unfold after_scoring; cbn [score]. apply additive_score_bounds.
  - rewrite result_entropy_eq. apply entropy_of_nonneg.
Qed.

(** ** The strength tier *)

Lemma Rltb_true (x y : R) : Rltb x y = true <-> (x < y)%R.
Proof. unfold Rltb. destruct (Rlt_dec x y); split; intros; try discriminate; tauto. Qed.

Lemma Rltb_false (x y : R) : Rltb x y = false <-> (y <= x)%R.
Proof.
  unfold Rltb. destruct (Rlt_dec x y); split; intros; try discriminate; try lra; tauto.
Qed.

(** The weakest of the two tiers wins. *)
Lemma classify_rank (score : Z) (entropy : R) :
  tier_rank (classify score entropy) =
  Z.min (tier_rank (score_tier score)) (tier_rank (entropy_tier entropy)).
Proof.
  unfold classify, score_tier, entropy_tier.
  destruct (Z.ltb_spec score 40), (Z.ltb_spec score 70), (Z.ltb_spec score 90);
    try lia;
    destruct (Rltb entropy 30) eqn:E30, (Rltb entropy 50) eqn:E50,
      (Rltb entropy 70) eqn:E70; cbn; try reflexivity;
    rewrite ?Rltb_true, ?Rltb_false in *; lra.
Qed.

Lemma score_tier_monotone (s1 s2 : Z) :
  s1 <= s2 -> tier_le (score_tier s1) (score_tier s2).
Proof.
  intros H. unfold tier_le, score_tier.
  destruct (Z.ltb_spec s1 40), (Z.ltb_spec s1 70), (Z.ltb_spec s1 90),
    (Z.ltb_spec s2 40), (Z.ltb_spec s2 70), (Z.ltb_spec s2 90); cbn; lia.
Qed.

Lemma entropy_tier_monotone (e1 e2 : R) :
  (e1 <= e2)%R -> tier_le (entropy_tier e1) (entropy_tier e2).
Proof.
  intros H. unfold tier_le, entropy_tier.
  destruct (Rltb e1 30) eqn:A30, (Rltb e1 50) eqn:A50, (Rltb e1 70) eqn:A70,
    (Rltb e2 30) eqn:B30, (Rltb e2 50) eqn:B50, (Rltb e2 70) eqn:B70;
    cbn; try lia; rewrite ?Rltb_true, ?Rltb_false in *; lra.
Qed.

Lemma classify_thresholds (score : Z) (entropy : R) :
  (classify score entropy = Weak <-> score < 40 \/ (entropy < 30)%R) /\
  (classify score entropy = Moderate <->
     (40 <= score /\ (30 <= entropy)%R) /\ (score < 70 \/ (entropy < 50)%R)) /\
  (classify score entropy = Strong <->
     (70 <= score /\ (50 <= entropy)%R) /\ (score < 90 \/ (entropy < 70)%R)) /\
  (classify score entropy = Excellent <-> 90 <= score /\ (70 <= entropy)%R).
Proof.
  unfold classify.
  destruct (Z.ltb_spec score 40), (Z.ltb_spec score 70), (Z.ltb_spec score 90);
    try lia;
    destruct (Rltb entropy 30) eqn:E30, (Rltb entropy 50) eqn:E50,
      (Rltb entropy 70) eqn:E70;
    rewrite ?Rltb_true, ?Rltb_false in *; try lra; cbn [orb];
    repeat split; intros; try discriminate; try tauto;
    repeat match goal with
           | H : _ /\ _ |- _ => destruct H
           | H : _ \/ _ |- _ => destruct H
           end; try lia; try lra; auto.
Qed.

(** C8. The strength tier is computed from the score and the entropy alone, it
    never gets weaker when the score grows with the entropy fixed or when the
    entropy grows with the score fixed, and its boundaries are 40/70/90 for the
    score and 30/50/70 for the entropy: a tier is reached only when both the
    score and the entropy clear its thresholds. *)
Theorem strength_tier_monotone (s1 s2 : Z) (e1 e2 : R) :
  s1 <= s2 -> (e1 <= e2)%R ->
  tier_le (classify s1 e1) (classify s2 e1) /\
  tier_le (classify s1 e1) (classify s1 e2) /\
  (classify s1 e1 = Weak <-> s1 < 40 \/ (e1 < 30)%R) /\
  (classify s1 e1 = Moderate <->
     (40 <= s1 /\ (30 <= e1)%R) /\ (s1 < 70 \/ (e1 < 50)%R)) /\
  (classify s1 e1 = Strong <->
     (70 <= s1 /\ (50 <= e1)%R) /\ (s1 < 90 \/ (e1 < 70)%R)) /\
  (classify s1 e1 = Excellent <-> 90 <= s1 /\ (70 <= e1)%R) /\
  (forall U password,
     result_strength (analyze_password U password) =
     strength_pair (classify (result_score (analyze_password U password))
                             (result_entropy (analyze_password U password)))).
Proof.
  intros Hs He.
  pose proof (score_tier_monotone s1 s2 Hs) as Ms.
  pose proof (entropy_tier_monotone e1 e2 He) as Me.
  unfold tier_le in *.
  split; [rewrite !classify_rank; lia|].
  split; [rewrite !classify_rank; lia|].
  pose proof (classify_thresholds s1 e1) as (HW & HM & HS & HE).
  repeat (split; [assumption|]).
  intros U password. apply result_strength_eq.
Qed.

Lemma strength_tier_monotone_witness :
  tier_le (classify 35 60) (classify 95 60) /\
  tier_le (classify 95 (45)%R) (classify 95 (75)%R).
Proof.
  split.
  - apply (strength_tier_monotone 35 95 60 60); [lia | lra].
  - apply (strength_tier_monotone 95 95 45 75); [lia | lra].
Defined.

(** ** Entropy against powers of two *)

Lemma ln_pow_IZR (p : Z) (n : nat) :
  0 < p -> ln (IZR (p ^ Z.of_nat n)) = (INR n * ln (IZR p))%R.
Proof.
  intros Hp. rewrite <- pow_IZR. apply ln_pow. now apply (IZR_lt 0).
Qed.

Lemma IZR_pow_pos (p : Z) (n : nat) : 0 < p -> (0 < IZR (p ^ Z.of_nat n))%R.
Proof. intros Hp. apply (IZR_lt 0). apply Z.pow_pos_nonneg; lia. Qed.

(** [n * log2 p < k] as soon as [p^n < 2^k], and the other way round. *)
Lemma log2_below (p : Z) (n k : nat) :
  0 < p -> p ^ Z.of_nat n < 2 ^ Z.of_nat k ->
  (INR n * log2 (IZR p) < INR k)%R.
Proof.
  intros Hp Hlt.
  assert (ln (IZR (p ^ Z.of_nat n)) < ln (IZR (2 ^ Z.of_nat k)))%R as Hln.
  { apply ln_increasing; [now apply IZR_pow_pos | now apply IZR_lt]. }
  rewrite !ln_pow_IZR in Hln by lia.
  pose proof ln_2_pos as H2. unfold log2.
  apply (Rmult_lt_reg_r (ln 2)); [assumption|].
  replace (INR n * (ln (IZR p) / ln 2) * ln 2)%R with (INR n * ln (IZR p))%R
    by (field; lra).
  exact Hln.
Qed.

Lemma log2_above (p : Z) (n k : nat) :
  0 < p -> 2 ^ Z.of_nat k < p ^ Z.of_nat n ->
  (INR k < INR n * log2 (IZR p))%R.
Proof.
  intros Hp Hlt.
  assert (ln (IZR (2 ^ Z.of_nat k)) < ln (IZR (p ^ Z.of_nat n)))%R as Hln.
  { apply ln_increasing; [now apply IZR_pow_pos | now apply IZR_lt]. }
  rewrite !ln_pow_IZR in Hln by lia.
  pose proof ln_2_pos as H2. unfold log2.
  apply (Rmult_lt_reg_r (ln 2)); [assumption|].
  replace (INR n * (ln (IZR p) / ln 2) * ln 2)%R with (INR n * ln (IZR p))%R
    by (field; lra).
  exact Hln.
Qed.

(** [6.55 < log2 94 < 6.556]: [2^131 < 94^20] and [94^250 < 2^1639]. *)
Lemma log2_94_bounds : (131 / 20 < log2 94 < 1639 / 250)%R.
Proof.
  pose proof (log2_above 94 20 131 eq_refl eq_refl) as Hlo.
  pose proof (log2_below 94 250 1639 eq_refl eq_refl) as Hhi.
  rewrite !INR_IZR_INZ in Hlo, Hhi. cbn in Hlo, Hhi.
  lra.
Qed.

(** ** The worked example of the specification *)

(** C5, as the code has it. analyze_password on Tr0ub4dor&3XQ reports all five
    criteria true, a character pool of 94, an entropy of 13 * log2(94), which
    lies between 85.15 and 85.25, and the tier Excellent with no penalty
    firing; the additive score is 26+15+15+20+20 = 96, since the length term
    is min(13 * 2, 30) = 26, and 96 is also the final score. *)
Theorem analyze_Tr0ub4dor (U : unicode_data) :
  let password := codes "Tr0ub4dor&3XQ" in
  let r := analyze_password U password in
  result_criteria r = criteria.mk true true true true true /\
  char_pool (result_criteria r) = 94 /\
  result_entropy r = (13 * log2 94)%R /\
  (8515 / 100 < result_entropy r < 8525 / 100)%R /\
  score (after_scoring U password) = 26 + 15 + 15 + 20 + 20 /\
  has_common_pattern U password = false /\
  is_repetitive password = false /\
  result_score r = 96 /\
  result_strength r = ("Excellent", "strength-excellent")%string.
Proof.
  intros password r.
  assert (result_criteria r = criteria.mk true true true true true) as Hc
    by (vm_compute; reflexivity).
  assert (result_entropy r = (13 * log2 94)%R) as He.
  { subst r. rewrite result_entropy_eq. rewrite result_criteria_eq in Hc.
    rewrite Hc. reflexivity. }
  assert (result_score r = 96) as Hs.
  { subst r. rewrite result_score_eq. vm_compute. reflexivity. }
  pose proof log2_94_bounds as Hb.
  split; [exact Hc|].
  split; [rewrite Hc; reflexivity|].
  split; [exact He|].
  split; [rewrite He; lra|].
  split; [vm_compute; reflexivity|].
  split; [vm_compute; reflexivity|].
  split; [vm_compute; reflexivity|].
  split; [exact Hs|].
  subst r. rewrite result_strength_eq. fold password. rewrite Hs, He.
  assert (classify 96 (13 * log2 94) = Excellent) as ->; [|reflexivity].
  apply classify_thresholds. split; [lia | lra].
Qed.

(** C5, as the specification words it: the additive score of Tr0ub4dor&3XQ is
    not 30+15+15+20+20 = 100, whatever the Unicode database. *)
Lemma analyze_Tr0ub4dor_additive_not_100 :
  ~ (exists U : unicode_data,
       score (after_scoring U (codes "Tr0ub4dor&3XQ")) = 30 + 15 + 15 + 20 + 20).
Proof.
  intros [U H]. vm_compute in H. discriminate H.
Qed.

(** ** Substring search *)

Lemma startswith_spec (p s : str) :
  startswith p s = true <-> exists post, s = p ++ post.
Proof.
  revert s. induction p as [|a p IH]; intros s; cbn.
  - split; [intros _; now exists s | reflexivity].
  - destruct s as [|b s].
    + split; [discriminate | intros [post H]; discriminate H].
    + rewrite andb_true_iff, N.eqb_eq, IH. split.
      * intros [-> [post ->]]. now exists post.
      * intros [post H]. injection H as -> ->. split; [reflexivity | now exists post].
Qed.

Lemma contains_spec (p s : str) : contains p s = true <-> is_substring p s.
Proof.
  unfold is_substring. induction s as [|b s IH]; cbn [contains].
  - rewrite orb_false_r, startswith_spec. split.
    + intros [post H]. now exists [], post.
    + intros [pre [post H]]. destruct pre; [now exists post|discriminate H].
  - rewrite orb_true_iff, startswith_spec, IH. split.
    + intros [[post H] | [pre [post H]]].
      * now exists [], post.
      * exists (b :: pre), post. cbn. now rewrite H.
    + intros [pre [post H]]. destruct pre as [|c pre].
      * left. now exists post.
      * right. injection H as _ H. now exists pre, post.
Qed.

Lemma has_common_pattern_spec (U : unicode_data) (password : str) :
  has_common_pattern U password = true <-> lower_has_common_pattern U password.
Proof.
  unfold has_common_pattern, lower_has_common_pattern.
  rewrite existsb_exists. split; intros [p [Hin H]]; exists p; split; trivial;
    now apply contains_spec.
Qed.

(** ** The two penalties *)

Lemma msg_common_not_later (rep l u lo d s : bool) :
  ~ In msg_common
      ((if rep then [msg_repetition] else []) ++
       (if l then [] else [msg_length]) ++
       (if u then [] else [msg_uppercase]) ++
       (if lo then [] else [msg_lowercase]) ++
       (if d then [] else [msg_digits]) ++
       (if s then [] else [msg_special])).
Proof.
  destruct rep, l, u, lo, d, s; cbn [app In]; intros H;
    repeat (destruct H as [H | H]; [discriminate H|]); exact H.
Qed.

(** The suggestions that analyze_password returns, message by message. *)
Lemma result_suggestions_messages (U : unicode_data) (password : str) :
  result_suggestions (analyze_password U password) =
  (if has_common_pattern U password then [msg_common] else []) ++
  (if is_repetitive password then [msg_repetition] else []) ++
  (if criteria.length (evaluate_criteria U password) then [] else [msg_length]) ++
  (if criteria.uppercase (evaluate_criteria U password) then [] else [msg_uppercase]) ++
  (if criteria.lowercase (evaluate_criteria U password) then [] else [msg_lowercase]) ++
  (if criteria.digits (evaluate_criteria U password) then [] else [msg_digits]) ++
  (if criteria.special (evaluate_criteria U password) then [] else [msg_special]).
Proof.
  rewrite result_suggestions_eq, suggestions_missing_criteria.
  unfold after_repetition, after_common.
  rewrite repetition_check_eq, common_check_eq.
  destruct (has_common_pattern U password), (is_repetitive password);
    cbn [suggestions after_scoring app]; reflexivity.
Qed.

(** The score that analyze_password returns, from the additive score. *)
Lemma result_score_steps (U : unicode_data) (password : str) :
  result_score (analyze_password U password) =
  let additive := additive_score password (evaluate_criteria U password) in
  let after_pattern :=
    if has_common_pattern U password then Z.max 10 (additive - 40) else additive in
  if is_repetitive password then Z.max 20 (after_pattern - 20) else after_pattern.
Proof.
  rewrite result_score_eq. unfold after_repetition, after_common.
  rewrite repetition_check_eq, common_check_eq.
  destruct (has_common_pattern U password), (is_repetitive password); reflexivity.
Qed.

(** C6. When the lowercase form of the input contains password, 1234, qwerty
    or admin, analyze_password sets the score to max(10, score - 40), where
    score is the additive score of the length and class terms, and appends
    the common-pattern suggestion, which is then the first suggestion of the
    result; otherwise the step changes nothing and the result carries no such
    suggestion. The repetition step runs afterwards, on the score this step
    left, and that is the score returned. *)
Theorem common_pattern_penalty (U : unicode_data) (password : str) :
  let r := analyze_password U password in
  let additive := additive_score password (evaluate_criteria U password) in
  (lower_has_common_pattern U password ->
     (score (after_common U password) = Z.max 10 (additive - 40) /\
      suggestions (after_common U password) = [msg_common] /\
      forall st, common_check U password st =
                 {| score := Z.max 10 (score st - 40);
                    suggestions := suggestions st ++ [msg_common] |}) /\
     result_score r =
       (if is_repetitive password
        then Z.max 20 (Z.max 10 (additive - 40) - 20)
        else Z.max 10 (additive - 40)) /\
     exists rest,
       result_suggestions r = msg_common :: rest /\ ~ In msg_common rest) /\
  (~ lower_has_common_pattern U password ->
     (after_common U password = after_scoring U password /\
      forall st, common_check U password st = st) /\
     result_score r =
       (if is_repetitive password then Z.max 20 (additive - 20) else additive) /\
     ~ In msg_common (result_suggestions r)) /\
  after_scoring U password = {| score := additive; suggestions := [] |} /\
  after_common U password = common_check U password (after_scoring U password) /\
  after_repetition U password = repetition_check password (after_common U password) /\
  result_score r = score (after_repetition U password) /\
  result_suggestions r =
    suggestions (missing_criteria (evaluate_criteria U password)
                   (after_repetition U password)).
Proof.
  intros r additive.
  split; [|split; [|split; [reflexivity|split; [reflexivity|split; [reflexivity|
    split; [apply result_score_eq | apply result_suggestions_eq]]]]]].
  - intros H. apply has_common_pattern_spec in H. split; [|split].
    + unfold after_common. rewrite !common_check_eq, H. cbn [score suggestions
        after_scoring app]. fold additive.
      split; [reflexivity|]. split; [reflexivity|].
      intros st. now rewrite common_check_eq, H.
    + subst r. rewrite result_score_steps, H. reflexivity.
    + subst r. rewrite result_suggestions_messages, H. cbn [app].
      eexists. split; [reflexivity|]. apply msg_common_not_later.
  - intros H.
    assert (has_common_pattern U password = false) as E.
    { destruct (has_common_pattern U password) eqn:E; [|reflexivity].
      exfalso. now apply H, has_common_pattern_spec. }
    split; [|split].
    + unfold after_common. rewrite common_check_eq, E. split; [reflexivity|].
      intros st. now rewrite common_check_eq, E.
    + subst r. rewrite result_score_steps, E. reflexivity.
    + subst r. rewrite result_suggestions_messages, E. cbn [app].
      apply msg_common_not_later.
Qed.

Lemma common_pattern_penalty_witness :
  (result_score (analyze_password ascii_only (codes "MyPassword1")) =
     (if is_repetitive (codes "MyPassword1")
      then Z.max 20 (Z.max 10 (additive_score (codes "MyPassword1")
             (evaluate_criteria ascii_only (codes "MyPassword1")) - 40) - 20)
      else Z.max 10 (additive_score (codes "MyPassword1")
             (evaluate_criteria ascii_only (codes "MyPassword1")) - 40)) /\
   exists rest,
     result_suggestions (analyze_password ascii_only (codes "MyPassword1")) =
       msg_common :: rest /\ ~ In msg_common rest) /\
  ~ In msg_common
      (result_suggestions (analyze_password ascii_only (codes "Tr0ub4dor&3XQ"))).
Proof.
  split.
  - refine (proj2 (proj1 (common_pattern_penalty ascii_only (codes "MyPassword1")) _)).
    exists (codes "password"). split; [cbn; tauto|].
    exists (codes "my"), (codes "1"). reflexivity.
  - refine (proj2 (proj2 (proj1 (proj2
      (common_pattern_penalty ascii_only (codes "Tr0ub4dor&3XQ"))) _))).
    intros H. apply has_common_pattern_spec in H. vm_compute in H. discriminate H.
Defined.

(** The comparison of line 113, with the division carried out exactly. *)
Lemma is_repetitive_spec (password : str) :
  is_repetitive password = true <-> 2 * len (set password) < len password.
Proof.
  unfold is_repetitive, Qltb.
  rewrite negb_true_iff, <- not_true_iff_false, Qle_bool_iff.
  set (d := len (set password)). set (n := len password).
  unfold Qle, Qdiv, Qmult, Qinv, inject_Z; cbn [Qnum Qden].
  change (Z.pos (1 * 2)) with 2. lia.
Qed.



(** ** Suggestions *)

Lemma suggestions_after_repetition (U : unicode_data) (password : str) :
  suggestions (after_repetition U password) =
  (if has_common_pattern U password then [msg_common] else []) ++
  (if is_repetitive password then [msg_repetition] else []).
Proof.
  unfold after_repetition, after_common.
  rewrite repetition_check_eq, common_check_eq.
  destruct (has_common_pattern U password), (is_repetitive password); reflexivity.
Qed.

(** C9. The suggestions are the common-pattern message if that penalty fired,
    then the repetition message if that one fired, then one message for each
    false criterion in the order length, uppercase, lowercase, digits,
    special; the list is empty exactly when all five criteria hold and no
    penalty fired, so it is non-empty whenever a criterion is false or a
    penalty fired. *)
Theorem suggestions_order (U : unicode_data) (password : str) :
  let c := evaluate_criteria U password in
  let r := analyze_password U password in
  result_suggestions r =
    (if has_common_pattern U password then [msg_common] else []) ++
    (if is_repetitive password then [msg_repetition] else []) ++
    (if criteria.length c then [] else [msg_length]) ++
    (if criteria.uppercase c then [] else [msg_uppercase]) ++
    (if criteria.lowercase c then [] else [msg_lowercase]) ++
    (if criteria.digits c then [] else [msg_digits]) ++
    (if criteria.special c then [] else [msg_special]) /\
  (result_suggestions r = [] <->
     c = criteria.mk true true true true true /\
     has_common_pattern U password = false /\
     is_repetitive password = false) /\
  (result_suggestions r <> [] <->
     criteria.length c = false \/ criteria.uppercase c = false \/
     criteria.lowercase c = false \/ criteria.digits c = false \/
     criteria.special c = false \/
     has_common_pattern U password = true \/ is_repetitive password = true).
Proof.
  intros c r.
  assert (result_suggestions r =
    (if has_common_pattern U password then [msg_common] else []) ++
    (if is_repetitive password then [msg_repetition] else []) ++
    (if criteria.length c then [] else [msg_length]) ++
    (if criteria.uppercase c then [] else [msg_uppercase]) ++
    (if criteria.lowercase c then [] else [msg_lowercase]) ++
    (if criteria.digits c then [] else [msg_digits]) ++
    (if criteria.special c then [] else [msg_special])) as E.
  { subst r. rewrite result_suggestions_eq, suggestions_missing_criteria,
      suggestions_after_repetition. fold c. now rewrite <- app_assoc. }
  split; [exact E|]. rewrite E. clear E. clearbody c. clear r.
  destruct c as [l u lo d s]; cbn [criteria.length criteria.uppercase
    criteria.lowercase criteria.digits criteria.special].
  destruct (has_common_pattern U password), (is_repetitive password),
    l, u, lo, d, s; cbn [app]; split; split; intros H;
    try discriminate; try discriminate H; try reflexivity; try tauto;
    try (destruct H as (H1 & H2 & H3); discriminate);
    try (exfalso; now apply H);
    try (repeat destruct H as [H | H]; discriminate H).
Qed.

(** ** The other worked examples of the specification *)

Example analyze_empty (U : unicode_data) :
  let r := analyze_password U [] in
  result_score r = 0 /\ result_entropy r = 0%R /\
  result_criteria r = criteria.mk false false false false false /\
  result_strength r = strength_pair Weak.
Proof.
  intros r. split; [reflexivity|]. split; [reflexivity|]. split; [reflexivity|].
  reflexivity.
Qed.

Example analyze_password_word (U : unicode_data) :
  let r := analyze_password U (codes "password") in
  score (after_scoring U (codes "password")) = 31 /\
  result_score r = Z.max 10 (31 - 40) /\
  In msg_common (result_suggestions r).
Proof.
  intros r. split; [vm_compute; reflexivity|].
  split; [subst r; rewrite result_score_eq; vm_compute; reflexivity|].
  left. reflexivity.
Qed.

Example analyze_twelve_a (U : unicode_data) :
  let password := codes "aaaaaaaaaaaa" in
  len (set password) = 1 /\ len password = 12 /\
  is_repetitive password = true /\
  evaluate_criteria U password = criteria.mk true false true false false.
Proof. repeat split; vm_compute; reflexivity. Qed.

(** Three equal characters: 1 < 3 / 2 holds, though 1 < 3 // 2 would not. *)
Example is_repetitive_three_of_one :
  is_repetitive (codes "aaa") = true /\ len (set (codes "aaa")) = 3 / 2.
Proof. split; reflexivity. Qed.

(** ** The penalties against the additive score *)

Lemma contains_head_in (c : char) (p s : str) :
  contains (c :: p) s = true -> In c s.
Proof.
  intros H. apply contains_spec in H. destruct H as [pre [post ->]].
  apply in_or_app. right. now left.
Qed.

Lemma ascii_lower_inv (c d : char) :
  ascii_lower c = d -> c = d \/ ((65 <= c <= 90)%N /\ d = (c + 32)%N).
Proof.
  unfold ascii_lower. change (ord "A") with 65%N. change (ord "Z") with 90%N.
  destruct ((65 <=? c)%N && (c <=? 90)%N) eqn:E; intros <-; [right | now left].
  apply andb_true_iff in E. destruct E as [E1 E2].
  apply N.leb_le in E1. apply N.leb_le in E2.
  split; [split; assumption | reflexivity].
Qed.

Lemma re_search_intro (U : unicode_data) (r : regex) (s : str) (c : char) :
  In c s -> re_matches U r c = true -> re_search U r s = true.
Proof. intros Hin Hm. apply existsb_exists. now exists c. Qed.

Lemma additive_score_class (password : str) (c : criteria.t) :
  criteria.uppercase c = true \/ criteria.lowercase c = true \/
  criteria.digits c = true ->
  15 <= additive_score password c.
Proof.
  pose proof (len_nonneg password).
  unfold additive_score.
  destruct c as [l u lo d s]; cbn [criteria.uppercase criteria.lowercase
    criteria.digits criteria.special].
  intros Hc; destruct u, lo, d, s; try lia;
    destruct Hc as [Hc | [Hc | Hc]]; discriminate Hc.
Qed.

(** A lowercase letter of the lowered text comes from a letter of the text. *)
Lemma lowered_letter (U : unicode_data) (password : str) (d : char) :
  (97 <= d <= 122)%N -> In d (map ascii_lower password) ->
  criteria.uppercase (evaluate_criteria U password) = true \/
  criteria.lowercase (evaluate_criteria U password) = true.
Proof.
  intros Hd Hin. apply in_map_iff in Hin. destruct Hin as [c [Hc Hin]].
  apply ascii_lower_inv in Hc. destruct Hc as [-> | [Hc ->]].
  - right. cbn [evaluate_criteria criteria.lowercase].
    apply (re_search_intro U _ _ d Hin).
    cbn. rewrite orb_false_r. apply andb_true_iff. split; apply N.leb_le; lia.
  - left. cbn [evaluate_criteria criteria.uppercase].
    apply (re_search_intro U _ _ c Hin).
    cbn. rewrite orb_false_r. apply andb_true_iff. split; apply N.leb_le; lia.
Qed.

(** A digit of the lowered text is a digit of the text. *)
Lemma lowered_digit (U : unicode_data) (password : str) (d : char) :
  (48 <= d <= 57)%N -> In d (map ascii_lower password) ->
  criteria.digits (evaluate_criteria U password) = true.
Proof.
  intros Hd Hin. apply in_map_iff in Hin. destruct Hin as [c [Hc Hin]].
  apply ascii_lower_inv in Hc. destruct Hc as [-> | [Hc ->]]; [|lia].
  cbn [evaluate_criteria criteria.digits].
  apply (re_search_intro U _ _ d Hin).
  unfold re_matches, is_ascii.
  assert ((d <? 128)%N = true) as -> by (apply N.ltb_lt; lia).
  cbn. rewrite orb_false_r. apply andb_true_iff. split; apply N.leb_le; lia.
Qed.

(** On ASCII text a common pattern brings a class bonus with it. *)
Lemma common_pattern_ascii_score (U : unicode_data) (password : str) :
  forallb is_ascii password = true ->
  has_common_pattern U password = true ->
  15 <= additive_score password (evaluate_criteria U password).
Proof.
  intros Ha H. unfold has_common_pattern, lower in H. rewrite Ha in H.
  cbn [existsb common_patterns] in H.
  apply additive_score_class.
  repeat (apply orb_true_iff in H; destruct H as [H | H]); [| | | |discriminate H].
  - apply (contains_head_in 112%N (codes "assword")) in H.
    apply (lowered_letter U) in H; [tauto | lia].
  - apply (contains_head_in 49%N (codes "234")) in H.
    apply (lowered_digit U) in H; [tauto | lia].
  - apply (contains_head_in 113%N (codes "werty")) in H.
    apply (lowered_letter U) in H; [tauto | lia].
  - apply (contains_head_in 97%N (codes "dmin")) in H.
    apply (lowered_letter U) in H; [tauto | lia].
Qed.

(** C4, as the code has it. The final score is at most max(20, additive
    score): the repetition penalty returns max(20, s - 20), which is at most s
    when s is 20 or more and is 20 when s is less, and the common-pattern
    penalty returns max(10, s - 40), at most s when s is 10 or more, which on
    ASCII input is always the case when it fires. *)
Theorem penalties_against_additive (U : unicode_data) (password : str) :
  let additive := additive_score password (evaluate_criteria U password) in
  let final := result_score (analyze_password U password) in
  final <= Z.max 20 additive /\
  (20 <= additive -> final <= additive) /\
  (forall st, score (repetition_check password st) <= Z.max 20 (score st)) /\
  (forall st, 20 <= score st -> score (repetition_check password st) <= score st) /\
  (forall st, score st < 20 -> is_repetitive password = true ->
              score (repetition_check password st) = 20) /\
  (forall st, 10 <= score st -> score (common_check U password st) <= score st) /\
  (forallb is_ascii password = true ->
     score (after_common U password) <= additive).
Proof.
  intros additive final.
  assert (forall st, score (repetition_check password st) <= Z.max 20 (score st)) as Hr.
  { intros st. rewrite repetition_check_eq.
    destruct (is_repetitive password); cbn [score]; lia. }
  assert (forall st, score (common_check U password st) <= Z.max 10 (score st)) as Hc.
  { intros st. rewrite common_check_eq.
    destruct (has_common_pattern U password); cbn [score]; lia. }
  assert (final <= Z.max 20 additive) as Hf.
  { subst final. rewrite result_score_eq. unfold after_repetition, after_common.
    specialize (Hr (common_check U password (after_scoring U password))).
    specialize (Hc (after_scoring U password)).
    change (score (after_scoring U password)) with additive in Hc. lia. }
  split; [exact Hf|].
  split; [lia|].
  split; [exact Hr|].
  split; [intros st Hst; specialize (Hr st); lia|].
  split.
  { intros st Hst E. rewrite repetition_check_eq, E. cbn [score]. lia. }
  split; [intros st Hst; specialize (Hc st); lia|].
  intros Ha. unfold after_common. rewrite common_check_eq.
  destruct (has_common_pattern U password) eqn:E; cbn [score];
    change (score (after_scoring U password)) with additive; [|lia].
  pose proof (common_pattern_ascii_score U password Ha E). fold additive in H. lia.
Qed.

Lemma penalties_against_additive_witness :
  result_score (analyze_password ascii_only (codes "aaaa1234")) <=
    additive_score (codes "aaaa1234") (evaluate_criteria ascii_only (codes "aaaa1234")) /\
  score (after_common ascii_only (codes "admin")) <=
    additive_score (codes "admin") (evaluate_criteria ascii_only (codes "admin")).
Proof.
  split.
  - refine (proj1 (proj2
      (penalties_against_additive ascii_only (codes "aaaa1234"))) _).
    vm_compute. discriminate.
  - refine (proj2 (proj2 (proj2 (proj2 (proj2 (proj2
      (penalties_against_additive ascii_only (codes "admin"))))))) _).
    reflexivity.
Defined.

(** C4, as the specification words it: on three spaces the additive score is
    6 and the repetition penalty lifts it to 20, whatever the Unicode
    database. *)
Lemma penalty_raises_score :
  ~ (exists U : unicode_data,
       result_score (analyze_password U (codes "   ")) <=
       additive_score (codes "   ") (evaluate_criteria U (codes "   "))).
Proof.
  intros [U H]. rewrite result_score_eq in H. vm_compute in H. now apply H.
Qed.

(** ** The generator *)

Lemma mem_In (c : char) (s : str) : mem c s = true <-> In c s.
Proof.
  unfold mem. rewrite existsb_exists. split.
  - intros [d [Hin E]]. apply N.eqb_eq in E. now subst.
  - intros Hin. exists c. split; [assumption | apply N.eqb_refl].
Qed.

Lemma mem_not_In (c : char) (s : str) : mem c s = false <-> ~ In c s.
Proof. rewrite <- mem_In. now destruct (mem c s). Qed.

Lemma nodup_fixed_NoDup (s : str) : nodup N.eq_dec s = s -> NoDup s.
Proof. intros <-. apply NoDup_nodup. Qed.

Lemma choice_returns (source : nat -> nat) (seq : str) (k : nat) :
  seq <> [] ->
  exists c, choice source seq k = (Returned c, S k) /\ In c seq.
Proof.
  intros Hne. destruct seq as [|c0 seq]; [contradiction|].
  eexists. split; [reflexivity|].
  apply nth_In. apply Nat.mod_upper_bound. discriminate.
Qed.

Lemma join_choices_returns (source : nat -> nat) (seq : str) (n k : nat) :
  seq <> [] ->
  exists s, join_choices source n seq k = (Returned s, (k + n)%nat) /\
            List.length s = n /\ Forall (fun c => In c seq) s.
Proof.
  intros Hne. revert k. induction n as [|n IH]; intros k.
  - exists []. cbn. rewrite Nat.add_0_r. repeat split. constructor.
  - destruct (choice_returns source seq k Hne) as [c [Hc Hin]].
    destruct (IH (S k)) as [s [Hs [Hlen Hall]]].
    exists (c :: s). cbn [join_choices]. unfold bind at 1. rewrite Hc.
    unfold bind at 1. rewrite Hs. unfold ret.
    split; [f_equal; lia|]. split; [cbn; now rewrite Hlen|].
    now constructor.
Qed.

Lemma chars_nonempty (include_special : bool) : chars include_special <> [].
Proof. destruct include_special; discriminate. Qed.

Lemma chars_false_no_punctuation (c : char) :
  In c (chars false) -> ~ In c pystring.punctuation.
Proof.
  intros Hin.
  assert (forallb (fun c => negb (mem c pystring.punctuation)) (chars false) = true)
    as H by (vm_compute; reflexivity).
  rewrite forallb_forall in H. specialize (H c Hin).
  apply negb_true_iff in H. now apply mem_not_In.
Qed.

(** C3. For a positive length the generator returns a string of exactly that
    many characters, each one a character of the pool of the chosen setting:
    the ASCII letters and digits, with the punctuation only when
    include_special is true; without it no character of the output, and none
    of the pool, is a punctuation character. *)
Theorem generate_length_and_pool
  (source : nat -> nat) (k : nat) (length : Z) (include_special : bool) :
  0 < length ->
  exists password,
    generate source length include_special k =
      (Returned password, (k + Z.to_nat length)%nat) /\
    len password = length /\
    Forall (fun c => In c (chars include_special)) password /\
    chars include_special =
      pystring.ascii_letters ++ pystring.digits ++
      (if include_special then pystring.punctuation else []) /\
    (include_special = false ->
       Forall (fun c => ~ In c pystring.punctuation) password) /\
    (forall c, In c (chars false) -> ~ In c pystring.punctuation).
Proof.
  intros Hpos. unfold generate.
  destruct (join_choices_returns source (chars include_special)
              (Z.to_nat length) k (chars_nonempty include_special))
    as [s [Hs [Hlen Hall]]].
  exists s. split; [exact Hs|].
  split; [unfold len; rewrite Hlen; lia|].
  split; [exact Hall|].
  split; [reflexivity|].
  split; [|exact chars_false_no_punctuation].
  intros ->. eapply Forall_impl; [|exact Hall].
  exact chars_false_no_punctuation.
Qed.

Lemma generate_length_and_pool_witness :
  exists password,
    generate (fun i => (7 * i + 3)%nat) 12 true 0%nat =
      (Returned password, (0 + Z.to_nat 12)%nat) /\
    len password = 12 /\
    Forall (fun c => In c (chars true)) password /\
    chars true =
      pystring.ascii_letters ++ pystring.digits ++ pystring.punctuation /\
    (true = false -> Forall (fun c => ~ In c pystring.punctuation) password) /\
    (forall c, In c (chars false) -> ~ In c pystring.punctuation).
Proof.
  apply (generate_length_and_pool (fun i => (7 * i + 3)%nat) 0 12 true).
  lia.
Defined.

(** ** The generator's punctuation against the special criterion *)

Lemma special_class_items :
  parse_class special_class = map Lit special_characters.
Proof. vm_compute. reflexivity. Qed.

Lemma special_matches (U : unicode_data) (c : char) :
  re_matches U (Class special_class) c = true <-> In c special_characters.
Proof.
  cbn [re_matches]. unfold in_class. rewrite special_class_items, existsb_exists.
  split.
  - intros [it [Hin Hm]]. apply in_map_iff in Hin. destruct Hin as [d [<- Hd]].
    cbn in Hm. apply N.eqb_eq in Hm. now subst.
  - intros Hin. exists (Lit c). split; [now apply in_map | apply N.eqb_refl].
Qed.




Lemma Forall_mem (s allowed : str) :
  forallb (fun c => mem c allowed) s = true -> Forall (fun c => In c allowed) s.
Proof.
  intros H. apply Forall_forall. intros c Hc. apply mem_In.
  rewrite forallb_forall in H. now apply H.
Qed.



(** * Further properties of the analyzer *)

Lemma strength_pair_inj (a b : tier) : strength_pair a = strength_pair b -> a = b.
Proof. destruct a, b; intros H; try reflexivity; discriminate H. Qed.

Lemma classify_score_below_70 (score : Z) (entropy : R) :
  score < 70 -> classify score entropy = Weak \/ classify score entropy = Moderate.
Proof.
  intros H. unfold classify.
  destruct ((score <? 40) || Rltb entropy 30); [now left|].
  apply Z.ltb_lt in H. rewrite H. cbn [orb]. now right.
Qed.

Lemma classify_score_below_90 (score : Z) (entropy : R) :
  score < 90 -> classify score entropy <> Excellent.
Proof.
  intros H E. apply classify_thresholds in E. lia.
Qed.

Lemma after_common_fired (U : unicode_data) (password : str) :
  has_common_pattern U password = true ->
  10 <= score (after_common U password) <= 60.
Proof.
  intros H. unfold after_common. rewrite common_check_eq, H. cbn [score].
  pose proof (additive_score_bounds password (evaluate_criteria U password)).
  unfold after_scoring; cbn [score]. lia.
Qed.

Lemma after_common_range (U : unicode_data) (password : str) :
  0 <= score (after_common U password) <= 100.
Proof.
  unfold after_common. apply common_check_range.
  unfold after_scoring; cbn [score]. apply additive_score_bounds.
Qed.

(** X1. A password whose lowercase form contains a denylist pattern ends with
    a score between 10 and 60 and is rated Weak or Moderate, whatever else it
    contains. *)
Theorem common_pattern_caps_rating (U : unicode_data) (password : str) :
  has_common_pattern U password = true ->
  let r := analyze_password U password in
  10 <= result_score r <= 60 /\
  (result_strength r = strength_pair Weak \/
   result_strength r = strength_pair Moderate).
Proof.
  intros H r.
  assert (10 <= result_score r <= 60) as Hs.
  { subst r. rewrite result_score_eq. unfold after_repetition.
    pose proof (after_common_fired U password H).
    rewrite repetition_check_eq. destruct (is_repetitive password); cbn [score]; lia. }
  split; [exact Hs|].
  subst r. rewrite result_strength_eq.
  destruct (classify_score_below_70 (result_score (analyze_password U password))
              (result_entropy (analyze_password U password))) as [-> | ->];
    [lia | now left | now right].
Qed.

Lemma common_pattern_caps_rating_witness :
  10 <= result_score (analyze_password ascii_only (codes "Qwerty!2024-Admin#Root")) <= 60.
Proof.
  refine (proj1 (common_pattern_caps_rating ascii_only
                   (codes "Qwerty!2024-Admin#Root") _)).
  vm_compute. reflexivity.
Defined.

(** X2. A password with fewer distinct characters than half its length ends
    with a score between 20 and 80 and is never rated Excellent. *)
Theorem repetition_caps_rating (U : unicode_data) (password : str) :
  is_repetitive password = true ->
  let r := analyze_password U password in
  20 <= result_score r <= 80 /\
  result_strength r <> strength_pair Excellent.
Proof.
  intros H r.
  assert (20 <= result_score r <= 80) as Hs.
  { subst r. rewrite result_score_eq. unfold after_repetition.
    pose proof (after_common_range U password).
    rewrite repetition_check_eq, H. cbn [score]. lia. }
  split; [exact Hs|].
  subst r. rewrite result_strength_eq. intros E. apply strength_pair_inj in E.
  revert E. apply classify_score_below_90. lia.
Qed.

Lemma repetition_caps_rating_witness :
  20 <= result_score (analyze_password ascii_only (codes "Aa1!Aa1!Aa1!Aa1!Aa1!")) <= 80.
Proof.
  refine (proj1 (repetition_caps_rating ascii_only
                   (codes "Aa1!Aa1!Aa1!Aa1!Aa1!") _)).
  vm_compute. reflexivity.
Defined.

Lemma final_score_range (U : unicode_data) (password : str) :
  0 <= result_score (analyze_password U password) <= 100.
Proof.
  rewrite result_score_eq. unfold after_repetition.
  apply repetition_check_range, after_common_range.
Qed.

(** ** Entropy per character *)

Lemma log2_le (x y : R) : (0 < x)%R -> (x <= y)%R -> (log2 x <= log2 y)%R.
Proof.
  intros Hx Hxy. unfold log2. pose proof ln_2_pos as H2.
  apply Rmult_le_compat_r; [left; now apply Rinv_0_lt_compat|].
  destruct Hxy as [Hlt | <-]; [left; now apply ln_increasing | right; reflexivity].
Qed.

Lemma log2_10_above_3 : (3 < log2 10)%R.
Proof.
  pose proof (log2_above 10 1 3 eq_refl eq_refl) as H.
  rewrite !INR_IZR_INZ in H. cbn in H. lra.
Qed.

Lemma char_pool_values (c : criteria.t) :
  (char_pool c = 0 \/ 10 <= char_pool c <= 94) /\
  (char_pool c = 0 <->
     criteria.uppercase c = false /\ criteria.lowercase c = false /\
     criteria.digits c = false /\ criteria.special c = false) /\
  (char_pool c = 94 <->
     criteria.uppercase c = true /\ criteria.lowercase c = true /\
     criteria.digits c = true /\ criteria.special c = true).
Proof.
  unfold char_pool.
  destruct c as [l u lo d s]; cbn [criteria.uppercase criteria.lowercase
    criteria.digits criteria.special].
  destruct u, lo, d, s; cbn; repeat split; intros; try lia; try discriminate;
    try tauto;
    repeat match goal with H : _ /\ _ |- _ => destruct H end; discriminate.
Qed.

(** A class criterion holds only for a password that has a character. *)
Lemma char_pool_pos_nonempty (U : unicode_data) (password : str) :
  0 < char_pool (evaluate_criteria U password) -> 1 <= len password.
Proof.
  destruct password as [|c password]; [cbn; lia|].
  intros _. unfold len. cbn [List.length]. lia.
Qed.

Lemma entropy_of_upper (password : str) (c : criteria.t) :
  (entropy_of password c <= IZR (len password) * log2 94)%R.
Proof.
  pose proof (len_nonneg password) as Hn. apply IZR_le in Hn.
  unfold entropy_of. destruct (Z.ltb_spec 0 (char_pool c)) as [Hp | Hp].
  - apply Rmult_le_compat_l; [exact Hn|].
    apply log2_le; [now apply (IZR_lt 0)|].
    apply IZR_le. destruct (char_pool_values c) as [[H | H] _]; lia.
  - apply Rmult_le_pos; [exact Hn|]. pose proof log2_94_bounds. lra.
Qed.

Lemma classify_entropy_below_30 (score : Z) (entropy : R) :
  (entropy < 30)%R -> classify score entropy = Weak.
Proof. intros H. apply classify_thresholds. now right. Qed.

Lemma classify_entropy_below_50 (score : Z) (entropy : R) :
  (entropy < 50)%R -> classify score entropy = Weak \/ classify score entropy = Moderate.
Proof.
  intros H. unfold classify.
  destruct ((score <? 40) || Rltb entropy 30); [now left|].
  apply Rltb_true in H. rewrite H, orb_true_r. now right.
Qed.

(** X4. A password of at most 7 characters is rated Weak or Moderate, and one
    of at most 4 characters is rated Weak, whatever its characters: its
    entropy stays below 50, respectively 30, bits. *)
Theorem short_password_rating (U : unicode_data) (password : str) :
  len password <= 7 ->
  let r := analyze_password U password in
  (result_entropy r < 50)%R /\
  (result_strength r = strength_pair Weak \/
   result_strength r = strength_pair Moderate) /\
  (len password <= 4 ->
   (result_entropy r < 30)%R /\ result_strength r = strength_pair Weak).
Proof.
  intros Hlen r.
  pose proof (entropy_of_upper password (evaluate_criteria U password)) as Hup.
  pose proof log2_94_bounds as Hb.
  pose proof (len_nonneg password) as Hn. apply IZR_le in Hn.
  assert (result_entropy r = entropy_of password (evaluate_criteria U password))
    as He by reflexivity.
  assert (result_entropy r < 50)%R as H50.
  { rewrite He. apply IZR_le in Hlen. nra. }
  split; [exact H50|]. split.
  - subst r. rewrite result_strength_eq.
    destruct (classify_entropy_below_50
                (result_score (analyze_password U password)) _ H50) as [-> | ->];
      [now left | now right].
  - intros H4.
    assert (result_entropy r < 30)%R as H30.
    { rewrite He. apply IZR_le in H4. nra. }
    split; [exact H30|].
    subst r. rewrite result_strength_eq.
    now rewrite (classify_entropy_below_30 _ _ H30).
Qed.

Lemma short_password_rating_witness :
  result_strength (analyze_password ascii_only (codes "aB3$")) = strength_pair Weak.
Proof.
  refine (proj2 (proj2 (proj2 (short_password_rating ascii_only (codes "aB3$") _)) _)).
  - vm_compute. discriminate.
  - vm_compute. discriminate.
Defined.

(** X5. The entropy is zero exactly when the password has no uppercase letter,
    lowercase letter, digit or special character (the empty password among
    them); otherwise the password is not empty and its entropy lies strictly
    between 3 and 6.556 bits per character. *)
Theorem entropy_zero_or_per_character (U : unicode_data) (password : str) :
  let c := evaluate_criteria U password in
  let e := result_entropy (analyze_password U password) in
  (e = 0%R <->
     criteria.uppercase c = false /\ criteria.lowercase c = false /\
     criteria.digits c = false /\ criteria.special c = false) /\
  (e <> 0%R ->
     1 <= len password /\
     (3 * IZR (len password) < e < 1639 / 250 * IZR (len password))%R).
Proof.
  intros c e.
  assert (e = entropy_of password c) as He by reflexivity.
  pose proof (char_pool_values c) as (Hv & H0 & _).
  pose proof log2_94_bounds as Hb. pose proof log2_10_above_3 as H3.
  assert (0 < char_pool c ->
          1 <= len password /\
          (3 * IZR (len password) < e < 1639 / 250 * IZR (len password))%R) as Hpos.
  { intros Hp. pose proof (char_pool_pos_nonempty U password Hp) as Hn.
    split; [exact Hn|]. apply IZR_le in Hn.
    pose proof (entropy_of_upper password c) as Hup.
    rewrite He. split; [|nra].
    unfold entropy_of. apply Z.ltb_lt in Hp as Hp'. rewrite Hp'.
    assert (log2 10 <= log2 (IZR (char_pool c)))%R.
    { apply log2_le; [lra|]. apply IZR_le. lia. }
    nra. }
  split; [split|].
  - intros E. apply H0. destruct Hv as [Hz | Hz]; [exact Hz|].
    destruct Hpos as [Hn Hb']; [lia|]. apply IZR_le in Hn. lra.
  - intros Hc. apply H0 in Hc. rewrite He. unfold entropy_of. now rewrite Hc.
  - intros Hne. apply Hpos. destruct Hv as [Hz | Hz]; [|lia].
    exfalso. apply Hne. rewrite He. unfold entropy_of. now rewrite Hz.
Qed.

Lemma entropy_zero_or_per_character_witness :
  1 <= len (codes "correct horse") /\
  (3 * IZR (len (codes "correct horse")) <
   result_entropy (analyze_password ascii_only (codes "correct horse")) <
   1639 / 250 * IZR (len (codes "correct horse")))%R.
Proof.
  refine (proj2 (entropy_zero_or_per_character ascii_only (codes "correct horse")) _).
  intros E.
  apply (proj1 (entropy_zero_or_per_character ascii_only (codes "correct horse"))) in E.
  destruct E as (_ & E & _). vm_compute in E. discriminate E.
Defined.

(** ** When a password is rated Excellent *)

Lemma entropy_of_all_classes (password : str) (c : criteria.t) :
  char_pool c = 94 -> entropy_of password c = (IZR (len password) * log2 94)%R.
Proof. intros H. unfold entropy_of. now rewrite H. Qed.

Lemma additive_score_all_classes (password : str) (c : criteria.t) :
  criteria.uppercase c = true -> criteria.lowercase c = true ->
  criteria.digits c = true -> criteria.special c = true ->
  additive_score password c = Z.min (len password * 2) 30 + 70.
Proof.
  intros Hu Hl Hd Hs. unfold additive_score. rewrite Hu, Hl, Hd, Hs. lia.
Qed.

Lemma additive_score_90 (password : str) (c : criteria.t) :
  90 <= additive_score password c ->
  criteria.uppercase c = true /\ criteria.lowercase c = true /\
  criteria.digits c = true /\ criteria.special c = true.
Proof.
  unfold additive_score.
  destruct c as [l u lo d s]; cbn [criteria.uppercase criteria.lowercase
    criteria.digits criteria.special].
  destruct u, lo, d, s; intros H; try lia; repeat split.
Qed.

Lemma score_no_penalty (U : unicode_data) (password : str) :
  has_common_pattern U password = false -> is_repetitive password = false ->
  score (after_repetition U password) =
  additive_score password (evaluate_criteria U password).
Proof.
  intros Hc Hr. unfold after_repetition, after_common.
  now rewrite repetition_check_eq, Hr, common_check_eq, Hc.
Qed.

(** X3. A password is rated Excellent exactly when it has an uppercase letter,
    a lowercase letter, a digit and a special character, at least 11
    characters, no denylist pattern and no excess of repeated characters. Its
    score is then min(2 * length, 30) + 70, and the only suggestion it can
    still get is the one about 12 characters. *)
Theorem excellent_iff (U : unicode_data) (password : str) :
  let r := analyze_password U password in
  let c := evaluate_criteria U password in
  (result_strength r = strength_pair Excellent <->
     (criteria.uppercase c = true /\ criteria.lowercase c = true /\
      criteria.digits c = true /\ criteria.special c = true) /\
     11 <= len password /\
     has_common_pattern U password = false /\
     is_repetitive password = false) /\
  (result_strength r = strength_pair Excellent ->
     result_score r = Z.min (len password * 2) 30 + 70 /\
     (result_suggestions r = [] \/ result_suggestions r = [msg_length])).
Proof.
  intros r c.
  pose proof log2_94_bounds as Hb.
  pose proof (len_nonneg password) as Hn.
  assert (result_strength r = strength_pair Excellent ->
          (criteria.uppercase c = true /\ criteria.lowercase c = true /\
           criteria.digits c = true /\ criteria.special c = true) /\
          11 <= len password /\
          has_common_pattern U password = false /\
          is_repetitive password = false) as Hfwd.
  { intros E. subst r. rewrite result_strength_eq in E.
    apply strength_pair_inj, classify_thresholds in E. destruct E as [Hs He].
    rewrite result_score_eq in Hs. rewrite result_entropy_eq in He. fold c in He.
    destruct (has_common_pattern U password) eqn:Hc.
    { exfalso. pose proof (after_common_fired U password Hc) as Hcf.
      unfold after_repetition in Hs. rewrite repetition_check_eq in Hs.
      destruct (is_repetitive password); cbn [score] in Hs; lia. }
    destruct (is_repetitive password) eqn:Hr.
    { exfalso. pose proof (after_common_range U password) as Hcr.
      unfold after_repetition in Hs. rewrite repetition_check_eq, Hr in Hs.
      cbn [score] in Hs. lia. }
    rewrite (score_no_penalty U password Hc Hr) in Hs. fold c in Hs.
    pose proof (additive_score_90 password c Hs) as Hall.
    split; [exact Hall|]. split; [|split; reflexivity].
    rewrite (entropy_of_all_classes password c) in He
      by (now apply char_pool_values).
    destruct (Z.le_gt_cases 11 (len password)) as [Hok | Hshort]; [exact Hok|].
    exfalso. assert (len password <= 10) as H10 by lia.
    apply IZR_le in H10. apply IZR_le in Hn. nra. }
  split; [split; [exact Hfwd|]|].
  - intros ((Hu & Hl & Hd & Hs) & Hlen & Hc & Hr).
    subst r. rewrite result_strength_eq. f_equal.
    apply classify_thresholds. split.
    + rewrite result_score_eq, (score_no_penalty U password Hc Hr). fold c.
      rewrite (additive_score_all_classes password c Hu Hl Hd Hs). lia.
    + rewrite result_entropy_eq. fold c.
      rewrite (entropy_of_all_classes password c) by (now apply char_pool_values).
      apply IZR_le in Hlen. nra.
  - intros E. destruct (Hfwd E) as ((Hu & Hl & Hd & Hs) & Hlen & Hc & Hr).
    subst r. split.
    + rewrite result_score_eq, (score_no_penalty U password Hc Hr). fold c.
      apply (additive_score_all_classes password c Hu Hl Hd Hs).
    + rewrite result_suggestions_eq, suggestions_missing_criteria,
        suggestions_after_repetition, Hc, Hr. fold c. rewrite Hu, Hl, Hd, Hs.
      destruct (criteria.length c); [now left | now right].
Qed.

Lemma excellent_iff_witness :
  result_score (analyze_password ascii_only (codes "Zx9!qLm2#Tv")) =
    Z.min (len (codes "Zx9!qLm2#Tv") * 2) 30 + 70 /\
  (result_suggestions (analyze_password ascii_only (codes "Zx9!qLm2#Tv")) = [] \/
   result_suggestions (analyze_password ascii_only (codes "Zx9!qLm2#Tv")) = [msg_length]).
Proof.
  refine (proj2 (excellent_iff ascii_only (codes "Zx9!qLm2#Tv")) _).
  apply (proj1 (excellent_iff ascii_only (codes "Zx9!qLm2#Tv"))).
  vm_compute. repeat split; discriminate.
Defined.

(** ** Appending characters *)

Lemma len_app {A} (a b : list A) : len (a ++ b) = len a + len b.
Proof. unfold len. rewrite length_app. lia. Qed.

Lemma re_search_app (U : unicode_data) (r : regex) (a b : str) :
  re_search U r (a ++ b) = re_search U r a || re_search U r b.
Proof. apply existsb_app. Qed.

Lemma char_pool_monotone (c d : criteria.t) :
  (criteria.uppercase c = true -> criteria.uppercase d = true) ->
  (criteria.lowercase c = true -> criteria.lowercase d = true) ->
  (criteria.digits c = true -> criteria.digits d = true) ->
  (criteria.special c = true -> criteria.special d = true) ->
  char_pool c <= char_pool d.
Proof.
  unfold char_pool. intros Hu Hl Hd Hs.
  destruct (criteria.uppercase c), (criteria.lowercase c), (criteria.digits c),
    (criteria.special c);
    try rewrite (Hu eq_refl); try rewrite (Hl eq_refl);
    try rewrite (Hd eq_refl); try rewrite (Hs eq_refl);
    destruct (criteria.uppercase d), (criteria.lowercase d), (criteria.digits d),
      (criteria.special d); lia.
Qed.

Lemma additive_score_monotone (a b : str) (c d : criteria.t) :
  len a <= len b ->
  (criteria.uppercase c = true -> criteria.uppercase d = true) ->
  (criteria.lowercase c = true -> criteria.lowercase d = true) ->
  (criteria.digits c = true -> criteria.digits d = true) ->
  (criteria.special c = true -> criteria.special d = true) ->
  additive_score a c <= additive_score b d.
Proof.
  unfold additive_score. intros Hlen Hu Hl Hd Hs.
  destruct (criteria.uppercase c), (criteria.lowercase c), (criteria.digits c),
    (criteria.special c);
    try rewrite (Hu eq_refl); try rewrite (Hl eq_refl);
    try rewrite (Hd eq_refl); try rewrite (Hs eq_refl);
    destruct (criteria.uppercase d), (criteria.lowercase d), (criteria.digits d),
      (criteria.special d); lia.
Qed.

Lemma entropy_of_monotone (a b : str) (c d : criteria.t) :
  len a <= len b -> char_pool c <= char_pool d ->
  (entropy_of a c <= entropy_of b d)%R.
Proof.
  intros Hlen Hpool.
  pose proof (len_nonneg a) as Ha. apply IZR_le in Ha. apply IZR_le in Hlen.
  unfold entropy_of at 1. destruct (Z.ltb_spec 0 (char_pool c)) as [Hc | Hc];
    [|apply entropy_of_nonneg].
  unfold entropy_of. assert ((0 <? char_pool d) = true) as -> by (apply Z.ltb_lt; lia).
  assert (0 <= log2 (IZR (char_pool c)))%R
    by (apply log2_nonneg, IZR_le; lia).
  assert (log2 (IZR (char_pool c)) <= log2 (IZR (char_pool d)))%R
    by (apply log2_le; [now apply (IZR_lt 0) | now apply IZR_le]).
  nra.
Qed.

(** X6. Appending characters to a password keeps every criterion it already
    met (each class criterion of the longer password is the disjunction of
    those of the two parts) and never lowers its character pool, its additive
    score or its entropy. The final score can drop all the same: appending
    1234 to Tr0ub4dor&3XQ takes it from 96 to 60. *)
Theorem appending_characters (U : unicode_data) (a b : str) :
  let ca := evaluate_criteria U a in
  let cb := evaluate_criteria U b in
  let cab := evaluate_criteria U (a ++ b) in
  (criteria.uppercase cab = criteria.uppercase ca || criteria.uppercase cb /\
   criteria.lowercase cab = criteria.lowercase ca || criteria.lowercase cb /\
   criteria.digits cab = criteria.digits ca || criteria.digits cb /\
   criteria.special cab = criteria.special ca || criteria.special cb /\
   criteria.length cab = criteria.length ca || (12 <=? len a + len b)) /\
  char_pool ca <= char_pool cab /\
  additive_score a ca <= additive_score (a ++ b) cab /\
  (entropy_of a ca <= entropy_of (a ++ b) cab)%R /\
  result_score (analyze_password U (codes "Tr0ub4dor&3XQ" ++ codes "1234")) <
  result_score (analyze_password U (codes "Tr0ub4dor&3XQ")).
Proof.
  intros ca cb cab.
  assert (criteria.uppercase cab = criteria.uppercase ca || criteria.uppercase cb)
    as Hu by apply re_search_app.
  assert (criteria.lowercase cab = criteria.lowercase ca || criteria.lowercase cb)
    as Hl by apply re_search_app.
  assert (criteria.digits cab = criteria.digits ca || criteria.digits cb)
    as Hd by apply re_search_app.
  assert (criteria.special cab = criteria.special ca || criteria.special cb)
    as Hs by apply re_search_app.
  assert (len a <= len (a ++ b)) as Hlen
    by (rewrite len_app; pose proof (len_nonneg b); lia).
  assert (char_pool ca <= char_pool cab) as Hpool.
  { apply char_pool_monotone; intros E;
      [rewrite Hu | rewrite Hl | rewrite Hd | rewrite Hs]; now rewrite E. }
  split; [repeat (split; [assumption|])|].
  - subst ca cab. cbn [evaluate_criteria criteria.length]. rewrite len_app.
    pose proof (len_nonneg b).
    destruct (Z.leb_spec 12 (len a)), (Z.leb_spec 12 (len a + len b)),
      (Z.leb_spec 12 (len a + len b)); cbn; try reflexivity; lia.
  - split; [exact Hpool|]. split.
    + apply additive_score_monotone; [exact Hlen | | | |]; intros E;
        [rewrite Hu | rewrite Hl | rewrite Hd | rewrite Hs]; now rewrite E.
    + split; [now apply entropy_of_monotone|].
      rewrite !result_score_eq. vm_compute. reflexivity.
Qed.

(** ** The denylist ignores the case of ASCII letters *)

(** X7. On ASCII text the denylist test ignores letter case and position: if
    a run of the password lowercases to password, 1234, qwerty or admin, the
    common-pattern penalty fires, whatever stands before and after the run. *)
Theorem common_pattern_any_case (U : unicode_data) (before run after pattern : str) :
  In pattern common_patterns ->
  map ascii_lower run = pattern ->
  forallb is_ascii (before ++ run ++ after) = true ->
  has_common_pattern U (before ++ run ++ after) = true /\
  In msg_common (result_suggestions (analyze_password U (before ++ run ++ after))).
Proof.
  intros Hin Hrun Hascii.
  assert (has_common_pattern U (before ++ run ++ after) = true) as H.
  { apply has_common_pattern_spec. exists pattern. split; [exact Hin|].
    unfold lower. rewrite Hascii. rewrite !map_app, Hrun.
    now exists (map ascii_lower before), (map ascii_lower after). }
  split; [exact H|].
  rewrite result_suggestions_eq, suggestions_missing_criteria,
    suggestions_after_repetition, H.
  apply in_or_app. left. now left.
Qed.

Lemma common_pattern_any_case_witness :
  has_common_pattern ascii_only (codes "my" ++ codes "PaSsWoRd" ++ codes "!7") = true.
Proof.
  refine (proj1 (common_pattern_any_case ascii_only (codes "my") (codes "PaSsWoRd")
                   (codes "!7") (codes "password") _ _ _)).
  - left. reflexivity.
  - reflexivity.
  - reflexivity.
Defined.

(** ** Distinct characters *)

Lemma set_nonempty (password : str) : password <> [] -> set password <> [].
Proof.
  destruct password as [|c password]; [contradiction|]. intros _ E.
  assert (In c (set (c :: password))) as Hin by (apply nodup_In; now left).
  rewrite E in Hin. exact Hin.
Qed.

Lemma len_set_le (password : str) : len (set password) <= len password.
Proof.
  unfold len, set. apply inj_le. apply NoDup_incl_length.
  - apply NoDup_nodup.
  - intros c Hc. now apply nodup_In in Hc.
Qed.

(** X8. The number of distinct characters is at most the length, and at least
    1 for a password that is not empty. The repetition penalty therefore fires
    only on a password of 3 or more characters in which some character occurs
    twice; a password whose characters are all different never gets it. *)
Theorem repetition_needs_repeats (password : str) :
  len (set password) <= len password /\
  (password <> [] -> 1 <= len (set password)) /\
  (is_repetitive password = true -> 3 <= len password /\ ~ NoDup password) /\
  (NoDup password -> is_repetitive password = false).
Proof.
  pose proof (len_set_le password) as Hle.
  assert (password <> [] -> 1 <= len (set password)) as Hne.
  { intros H. apply set_nonempty in H. unfold len.
    destruct (set password); [contradiction | cbn [List.length]; lia]. }
  assert (NoDup password -> is_repetitive password = false) as Hnd.
  { intros H. destruct (is_repetitive password) eqn:E; [|reflexivity].
    apply is_repetitive_spec in E. unfold set in E.
    rewrite (nodup_fixed_point N.eq_dec H) in E.
    pose proof (len_nonneg password). lia. }
  split; [exact Hle|]. split; [exact Hne|]. split; [|exact Hnd].
  intros E. split.
  - apply is_repetitive_spec in E.
    destruct password as [|c password]; [cbn in E; lia|].
    assert (c :: password <> []) as Hc by discriminate.
    specialize (Hne Hc). lia.
  - intros H. apply Hnd in H. rewrite H in E. discriminate E.
Qed.

Lemma repetition_needs_repeats_witness :
  (3 <= len (codes "zzz") /\ ~ NoDup (codes "zzz")) /\
  is_repetitive (codes "zebra") = false.
Proof.
  split.
  - refine (proj1 (proj2 (proj2 (repetition_needs_repeats (codes "zzz")))) _).
    reflexivity.
  - refine (proj2 (proj2 (proj2 (repetition_needs_repeats (codes "zebra")))) _).
    apply nodup_fixed_NoDup. reflexivity.
Defined.

(** * The generator's output under the analyzer *)

Lemma final_score_le (U : unicode_data) (password : str) :
  score (after_repetition U password) <=
  Z.max 20 (additive_score password (evaluate_criteria U password)).
Proof.
  unfold after_repetition, after_common.
  rewrite repetition_check_eq, common_check_eq.
  destruct (is_repetitive password), (has_common_pattern U password);
    cbn [score after_scoring]; lia.
Qed.

Lemma additive_score_without_special (password : str) (c : criteria.t) :
  criteria.special c = false -> additive_score password c <= 80.
Proof.
  intros H. unfold additive_score. rewrite H.
  destruct (criteria.uppercase c), (criteria.lowercase c), (criteria.digits c); lia.
Qed.

Lemma pool_without_special (c : char) :
  In c (chars false) -> ~ In c special_characters.
Proof.
  intros Hin.
  assert (forallb (fun c => negb (mem c special_characters)) (chars false) = true)
    as H by (vm_compute; reflexivity).
  rewrite forallb_forall in H. specialize (H c Hin).
  apply negb_true_iff in H. now apply mem_not_In.
Qed.

Lemma pool_is_ascii (include_special : bool) (c : char) :
  In c (chars include_special) -> is_ascii c = true.
Proof.
  intros Hin.
  assert (forallb is_ascii (chars include_special) = true) as H
    by (destruct include_special; vm_compute; reflexivity).
  rewrite forallb_forall in H. now apply H.
Qed.

(** X9. A password generated with include_special off, of any length and from
    any random source, never meets the special criterion of the analyzer: its
    score is at most 80, it is never rated Excellent, and the analyzer always
    suggests adding special characters. *)
Theorem generated_without_special_rating
  (U : unicode_data) (source : nat -> nat) (k : nat) (length : Z) :
  exists password,
    generate source length false k =
      (Returned password, (k + Z.to_nat length)%nat) /\
    forallb is_ascii password = true /\
    criteria.special (result_criteria (analyze_password U password)) = false /\
    result_score (analyze_password U password) <= 80 /\
    result_strength (analyze_password U password) <> strength_pair Excellent /\
    In msg_special (result_suggestions (analyze_password U password)).
Proof.
  destruct (join_choices_returns source (chars false) (Z.to_nat length) k
              (chars_nonempty false)) as [s [Hs [_ Hall]]].
  exists s. split; [exact Hs|].
  rewrite Forall_forall in Hall.
  assert (forallb is_ascii s = true) as Hascii.
  { apply forallb_forall. intros c Hc. apply (pool_is_ascii false), Hall, Hc. }
  assert (criteria.special (evaluate_criteria U s) = false) as Hsp.
  { cbn [evaluate_criteria criteria.special].
    destruct (re_search U (Class special_class) s) eqn:E; [|reflexivity].
    exfalso. apply existsb_exists in E. destruct E as [c [Hin Hm]].
    apply special_matches in Hm. exact (pool_without_special c (Hall c Hin) Hm). }
  assert (result_score (analyze_password U s) <= 80) as Hscore.
  { rewrite result_score_eq. pose proof (final_score_le U s).
    pose proof (additive_score_without_special s _ Hsp). lia. }
  split; [exact Hascii|]. split; [exact Hsp|]. split; [exact Hscore|]. split.
  - rewrite result_strength_eq. intros E. apply strength_pair_inj in E.
    revert E. apply classify_score_below_90. lia.
  - rewrite result_suggestions_eq, suggestions_missing_criteria, Hsp.
    repeat (apply in_or_app; right). now left.
Qed.

Lemma existsb_repeat {A} (f : A -> bool) (x : A) (n : nat) :
  existsb f (repeat x (S n)) = f x.
Proof.
  induction n as [|n IH]; [cbn; apply orb_false_r|].
  change (repeat x (S (S n))) with (x :: repeat x (S n)).
  cbn [existsb]. rewrite IH. apply orb_diag.
Qed.

Lemma set_repeat (c : char) (n : nat) : set (repeat c (S n)) = [c].
Proof.
  unfold set. induction n as [|n IH]; [reflexivity|].
  change (repeat c (S (S n))) with (c :: repeat c (S n)).
  cbn [nodup]. destruct (in_dec N.eq_dec c (repeat c (S n))) as [_ | Hno];
    [exact IH | exfalso; apply Hno; now left].
Qed.

Lemma join_choices_zero_source (include_special : bool) (n k : nat) :
  join_choices (fun _ => 0%nat) n (chars include_special) k =
  (Returned (repeat (ord "a") n), (k + n)%nat).
Proof.
  revert k. induction n as [|n IH]; intros k.
  - cbn. now rewrite Nat.add_0_r.
  - cbn [join_choices]. unfold bind at 1.
    assert (choice (fun _ => 0%nat) (chars include_special) k =
            (Returned (ord "a"), S k)) as ->
      by (destruct include_special; reflexivity).
    unfold bind at 1. rewrite IH. unfold ret. cbn [repeat]. f_equal. lia.
Qed.

(** X10. The generator does not filter what it draws: when every draw of the
    random source is 0, a request for 3 or more characters, with or without
    specials, returns that many copies of the letter a, which the analyzer
    rates Weak with a score between 20 and 25 and the repetition penalty. *)
Theorem generator_can_return_weak
  (U : unicode_data) (k : nat) (length : Z) (include_special : bool) :
  3 <= length ->
  let password := repeat (ord "a") (Z.to_nat length) in
  generate (fun _ => 0%nat) length include_special k =
    (Returned password, (k + Z.to_nat length)%nat) /\
  is_repetitive password = true /\
  20 <= result_score (analyze_password U password) <= 25 /\
  result_strength (analyze_password U password) = strength_pair Weak.
Proof.
  intros Hlen password.
  split; [apply join_choices_zero_source|].
  assert (exists m, Z.to_nat length = S (S (S m))) as [m Hm].
  { exists (Z.to_nat length - 3)%nat. lia. }
  assert (len password = length) as Hl.
  { unfold len, password. rewrite repeat_length. lia. }
  assert (is_repetitive password = true) as Hrep.
  { apply is_repetitive_spec. rewrite Hl. unfold password. rewrite Hm, set_repeat.
    cbn. lia. }
  assert (additive_score password (evaluate_criteria U password) <= 45) as Hadd.
  { unfold additive_score. cbn [evaluate_criteria criteria.uppercase
      criteria.lowercase criteria.digits criteria.special].
    unfold re_search, password. rewrite Hm, !existsb_repeat.
    assert (re_matches U (Class (codes "A-Z")) (ord "a") = false) as -> by reflexivity.
    assert (re_matches U Digit (ord "a") = false) as -> by reflexivity.
    assert (re_matches U (Class special_class) (ord "a") = false) as -> by reflexivity.
    destruct (re_matches U (Class (codes "a-z")) (ord "a")); lia. }
  assert (20 <= result_score (analyze_password U password) <= 25) as Hs.
  { rewrite result_score_eq. unfold after_repetition.
    rewrite repetition_check_eq, Hrep. cbn [score].
    pose proof (after_common_range U password) as Hr.
    assert (score (after_common U password) <= 45); [|lia].
    unfold after_common. rewrite common_check_eq.
    destruct (has_common_pattern U password); cbn [score after_scoring]; lia. }
  split; [exact Hrep|]. split; [exact Hs|].
  rewrite result_strength_eq. f_equal. apply classify_thresholds. left. lia.
Qed.

Lemma generator_can_return_weak_witness :
  generate (fun _ => 0%nat) 8 true 0%nat =
    (Returned (repeat (ord "a") (Z.to_nat 8)), (0 + Z.to_nat 8)%nat).
Proof.
  refine (proj1 (generator_can_return_weak ascii_only 0 8 true _)). lia.
Defined.

(** ** Every string over the pool can be generated *)

Lemma join_choices_ext (s1 s2 : nat -> nat) (seq : str) (n k : nat) :
  (forall i, (k <= i < k + n)%nat -> s1 i = s2 i) ->
  join_choices s1 n seq k = join_choices s2 n seq k.
Proof.
  revert k. induction n as [|n IH]; intros k H; [reflexivity|].
  cbn [join_choices]. unfold bind at 1 3.
  assert (choice s1 seq k = choice s2 seq k) as ->.
  { unfold choice. destruct seq; [reflexivity|]. rewrite (H k) by lia. reflexivity. }
  destruct (choice s2 seq k) as [[c | e] k'] eqn:E; [|reflexivity].
  assert (k' = S k) as ->.
  { unfold choice in E. destruct seq; [discriminate E|]. now injection E. }
  unfold bind. rewrite (IH (S k)); [reflexivity|]. intros i Hi. apply H. lia.
Qed.

Lemma join_choices_onto (seq password : str) (k : nat) :
  Forall (fun c => In c seq) password ->
  exists source,
    join_choices source (List.length password) seq k =
    (Returned password, (k + List.length password)%nat).
Proof.
  intros Hall. revert k. induction Hall as [|c rest Hc Hrest IH]; intros k.
  - exists (fun _ => 0%nat). cbn. now rewrite Nat.add_0_r.
  - destruct (IH (S k)) as [tail_source Htail].
    destruct seq as [|c0 seq]; [contradiction|].
    destruct (In_nth _ _ c0 Hc) as [n [Hn Hnth]].
    exists (fun i => if (i =? k)%nat then n else tail_source i).
    cbn [List.length join_choices]. unfold bind at 1. unfold choice at 1.
    rewrite Nat.eqb_refl, (Nat.mod_small _ _ Hn), Hnth.
    unfold bind at 1.
    rewrite (join_choices_ext _ tail_source).
    + rewrite Htail. unfold ret. f_equal. lia.
    + intros i Hi. destruct (Nat.eqb_spec i k); [lia | reflexivity].
Qed.

(** X11. Every string over the pool is a possible output: for each setting of
    include_special and each string made of characters of that pool, some
    random source makes the generator return exactly this string when asked
    for its length. *)
Theorem generate_onto_pool (include_special : bool) (password : str) :
  Forall (fun c => In c (chars include_special)) password ->
  exists source,
    generate source (len password) include_special 0%nat =
    (Returned password, List.length password).
Proof.
  intros Hall.
  destruct (join_choices_onto (chars include_special) password 0 Hall)
    as [source Hs].
  exists source. unfold generate, len. now rewrite Nat2Z.id, Hs.
Qed.

Lemma generate_onto_pool_witness :
  exists source,
    generate source (len (codes "Tr0ub4dor&3XQ")) true 0%nat =
    (Returned (codes "Tr0ub4dor&3XQ"), List.length (codes "Tr0ub4dor&3XQ")).
Proof.
  apply (generate_onto_pool true (codes "Tr0ub4dor&3XQ")).
  apply Forall_mem. vm_compute. reflexivity.
Defined.

(** * create_gauge *)

Lemma format_int_read_back (n : Z) :
  option_map Z.of_int (NilZero.int_of_string (format_int n)) = Some n.
Proof.
  unfold format_int. rewrite NilZero.isi.
  - cbn [option_map]. now rewrite DecimalZ.of_to.
  - destruct n; cbn; try discriminate.
    intros [= H]. now apply DecimalPos.Unsigned.to_uint_nonnil in H.
  - destruct n; cbn; try discriminate.
    intros [= H]. now apply DecimalPos.Unsigned.to_uint_nonnil in H.
Qed.

Lemma scores_forall (P : Z -> bool) :
  forallb P scores = true -> forall s, 0 <= s <= 100 -> P s = true.
Proof.
  intros H s Hs. rewrite forallb_forall in H. apply H.
  unfold scores. rewrite <- (Z2Nat.id s) by lia.
  apply in_map, in_seq. lia.
Qed.

(** What the floats of one gauge must satisfy, and of two gauges in order. *)
Lemma gauge_floats (s : Z) :
  0 <= s <= 100 ->
  ((0 <=? times_3_6 s)%float = true /\
   (times_3_6 s <=? 360)%float = true /\
   (times_3_6 s =? 360)%float = (s =? 100) /\
   (times_3_6 s =? 0)%float = (s =? 0)) /\
  ((0 <=? true_divide s 100)%float = true /\
   (true_divide s 100 <=? 1)%float = true /\
   (true_divide s 100 =? 1)%float = (s =? 100)).
Proof.
  intros Hs.
  pose proof (scores_forall
    (fun s => (0 <=? times_3_6 s)%float
              && (times_3_6 s <=? 360)%float
              && Bool.eqb (times_3_6 s =? 360)%float (s =? 100)
              && Bool.eqb (times_3_6 s =? 0)%float (s =? 0)
              && (0 <=? true_divide s 100)%float
              && (true_divide s 100 <=? 1)%float
              && Bool.eqb (true_divide s 100 =? 1)%float (s =? 100))
    ltac:(vm_compute; reflexivity) s Hs) as H.
  cbv beta in H. repeat (apply andb_true_iff in H; destruct H as [H ?]).
  repeat match goal with
         | E : Bool.eqb _ _ = true |- _ => apply Bool.eqb_prop in E
         end.
  repeat split; assumption.
Qed.

Lemma gauge_floats_increasing (s s' : Z) :
  0 <= s -> s < s' -> s' <= 100 ->
  (times_3_6 s <? times_3_6 s')%float = true /\
  (true_divide s 100 <? true_divide s' 100)%float = true.
Proof.
  intros H0 Hlt H100.
  pose proof (scores_forall
    (fun a => forallb
       (fun b => negb (a <? b)
                 || ((times_3_6 a <? times_3_6 b)%float
                     && (true_divide a 100 <? true_divide b 100)%float))
       scores)
    ltac:(vm_compute; reflexivity) s ltac:(lia)) as H.
  cbv beta in H.
  pose proof (scores_forall _ H s' ltac:(lia)) as H'. cbv beta in H'.
  assert ((s <? s') = true) as E by (apply Z.ltb_lt; exact Hlt).
  rewrite E in H'. cbn [negb orb] in H'. now apply andb_true_iff in H'.
Qed.

(** X12. For the score of any analysis, the binary64 floats that the code
    computes for the ring segment of the gauge behave: its end angle
    score * 3.6 lies between 0 and 360, is 360 only at score 100 and 0 only at
    score 0; its colour is sampled at score / 100, between 0 and 1 and 1 only
    at score 100; a password with a higher score gets a strictly larger angle
    and a strictly later colour; and the number printed in the middle reads
    back as the score. *)
Theorem gauge_of_analysis (U : unicode_data) (password : str) :
  let score := result_score (analyze_password U password) in
  exists theta2 shade text,
    progress_of (create_gauge score) = Some (theta2, shade) /\
    ((0 <=? theta2)%float = true /\ (theta2 <=? 360)%float = true) /\
    ((theta2 =? 360)%float = true <-> score = 100) /\
    ((theta2 =? 0)%float = true <-> score = 0) /\
    ((0 <=? shade)%float = true /\ (shade <=? 1)%float = true) /\
    ((shade =? 1)%float = true <-> score = 100) /\
    (forall other,
       score < result_score (analyze_password U other) ->
       exists theta2' shade',
         progress_of (create_gauge (result_score (analyze_password U other))) =
           Some (theta2', shade') /\
         (theta2 <? theta2')%float = true /\ (shade <? shade')%float = true) /\
    map snd (texts (create_gauge score)) = [text; "SCORE"%string] /\
    option_map Z.of_int (NilZero.int_of_string text) = Some score.
Proof.
  intros score.
  assert (0 <= score <= 100) as Hs
    by apply (final_score_range U password).
  assert (forall other, 0 <= result_score (analyze_password U other) <= 100) as Ho
    by (intros other; apply final_score_range).
  clearbody score.
  destruct (gauge_floats score Hs) as ((T0 & T360 & Tfull & Tzero) & (S0 & S1 & Sfull)).
  exists (times_3_6 score), (true_divide score 100), (format_int score).
  split; [reflexivity|].
  split; [split; assumption|].
  split; [rewrite Tfull; apply Z.eqb_eq|].
  split; [rewrite Tzero; apply Z.eqb_eq|].
  split; [split; assumption|].
  split; [rewrite Sfull; apply Z.eqb_eq|].
  split.
  { intros other Hlt. specialize (Ho other).
    destruct (gauge_floats_increasing score _ (proj1 Hs) Hlt (proj2 Ho)) as [Ht Hsh].
    eexists _, _. split; [reflexivity|]. split; assumption. }
  split; [reflexivity | apply format_int_read_back].
Qed.

(** * main *)

Lemma main_page (U : unicode_data) (source : nat -> nat) (w : widgets) (k : nat) :
  exists side,
    sidebar source w k =
      (Returned side, (k + if button w then Z.to_nat (slider w) else 0)%nat) /\
    main U source w k =
      (Returned ([stylesheet; page_title; page_subtitle] ++ side
                 ++ first_column U (text_input w) ++ second_column U (text_input w)),
       (k + if button w then Z.to_nat (slider w) else 0)%nat) /\
    ((button w = false /\ side = [sidebar_header "Password Generator"]) \/
     (button w = true /\
      exists password,
        side = [sidebar_header "Password Generator"; code password] /\
        generate source (slider w) (checkbox w) k =
          (Returned password, (k + Z.to_nat (slider w))%nat) /\
        List.length password = Z.to_nat (slider w) /\
        Forall (fun c => In c (chars (checkbox w))) password)).
Proof.
  unfold main, sidebar. destruct (button w).
  - destruct (join_choices_returns source (chars (checkbox w))
                (Z.to_nat (slider w)) k (chars_nonempty (checkbox w)))
      as [s [Hs [Hlen Hall]]].
    exists [sidebar_header "Password Generator"; code s].
    unfold generate, bind, ret. rewrite Hs.
    split; [reflexivity|]. split; [reflexivity|].
    right. split; [reflexivity|]. exists s. repeat split; assumption.
  - exists [sidebar_header "Password Generator"].
    unfold bind, ret. rewrite Nat.add_0_r.
    split; [reflexivity|]. split; [reflexivity|]. left. now split.
Qed.

Lemma flat_map_map_nil {A B C} (f : B -> list C) (g : A -> B) (l : list A) :
  (forall x, f (g x) = []) -> flat_map f (map g l) = [].
Proof.
  intros H. induction l as [|x l IH]; [reflexivity|].
  cbn [map flat_map]. now rewrite H, IH.
Qed.

Lemma flat_map_map_single {A B C} (f : B -> list C) (g : A -> B) (h : A -> C)
  (l : list A) :
  (forall x, f (g x) = [h x]) -> flat_map f (map g l) = map h l.
Proof.
  intros H. induction l as [|x l IH]; [reflexivity|].
  cbn [map flat_map]. now rewrite H, IH.
Qed.

Lemma shown_codes_columns (U : unicode_data) (password : str) :
  shown_codes (first_column U password ++ second_column U password) = [].
Proof.
  unfold shown_codes. rewrite flat_map_app.
  unfold first_column, second_column.
  destruct (truthy password); [|reflexivity].
  destruct (result_strength (analyze_password U password)) as [t cl].
  cbn [flat_map app]. rewrite !flat_map_app. cbn [flat_map app].
  rewrite flat_map_map_nil by reflexivity.
  destruct (truthy (result_suggestions (analyze_password U password)));
    cbn [flat_map app]; [|reflexivity].
  now rewrite flat_map_map_nil.
Qed.

(** X13. With the slider in its range of 8 to 32, one run of the page never
    fails. When the Generate button is not pressed it shows no password; when
    it is pressed it shows exactly one password, the one the generator
    returned for the slider's length and the checkbox's setting: it has as
    many characters as the slider says (so between 8 and 32), all from the
    pool that the checkbox selects. *)
Theorem main_generates (U : unicode_data) (source : nat -> nat) (w : widgets) (k : nat) :
  8 <= slider w <= 32 ->
  exists page,
    fst (main U source w k) = Returned page /\
    (button w = false -> shown_codes page = []) /\
    (button w = true ->
     exists password,
       shown_codes page = [password] /\
       fst (generate source (slider w) (checkbox w) k) = Returned password /\
       len password = slider w /\ 8 <= len password <= 32 /\
       Forall (fun c => In c (chars (checkbox w))) password).
Proof.
  intros Hslider.
  destruct (main_page U source w k) as [side [_ [Hmain Hside]]].
  eexists. split; [rewrite Hmain; reflexivity|].
  pose proof (shown_codes_columns U (text_input w)) as Hcols.
  unfold shown_codes in *. rewrite flat_map_app in Hcols.
  split.
  - intros Hb. destruct Hside as [[_ ->] | [Hb' _]]; [|congruence].
    rewrite !flat_map_app, Hcols. reflexivity.
  - intros Hb. destruct Hside as [[Hb' _] | [_ [p [-> [Hgen [Hlen Hall]]]]]];
      [congruence|].
    exists p. rewrite !flat_map_app, Hcols.
    split; [reflexivity|]. split; [rewrite Hgen; reflexivity|].
    assert (len p = slider w) as Hl by (unfold len; rewrite Hlen; lia).
    split; [exact Hl|]. split; [lia | exact Hall].
Qed.

Lemma main_generates_witness :
  exists page,
    fst (main ascii_only (fun i => (3 * i + 1)%nat)
           {| slider := 12; checkbox := true; button := true; text_input := [] |}
           0%nat) = Returned page /\
    (true = false -> shown_codes page = []) /\
    (true = true ->
     exists password,
       shown_codes page = [password] /\
       fst (generate (fun i => (3 * i + 1)%nat) 12 true 0%nat) = Returned password /\
       len password = 12 /\ 8 <= len password <= 32 /\
       Forall (fun c => In c (chars true)) password).
Proof.
  apply (main_generates ascii_only (fun i => (3 * i + 1)%nat)
           {| slider := 12; checkbox := true; button := true; text_input := [] |} 0).
  cbn. lia.
Defined.

(** The two columns for a password that is not empty. *)
Lemma columns_of_nonempty (U : unicode_data) (c : char) (rest : str) :
  let password := c :: rest in
  let r := analyze_password U password in
  first_column U password ++ second_column U password =
  [pyplot (create_gauge (result_score r));
   strength_meter (fst (result_strength r)) (snd (result_strength r));
   card_open; subheader "Security Metrics";
   metric col_a "Entropy (bits)" (one_decimal (result_entropy r));
   metric col_a "Length" (int_value (len password));
   metric col_b "Score (0-100)" (int_value (result_score r));
   metric col_b "Unique Chars" (int_value (len (set password)));
   subheader "Criteria Check";
   write_check "Length" (criteria.length (result_criteria r));
   write_check "Uppercase" (criteria.uppercase (result_criteria r));
   write_check "Lowercase" (criteria.lowercase (result_criteria r));
   write_check "Digits" (criteria.digits (result_criteria r));
   write_check "Special" (criteria.special (result_criteria r))]
  ++ (if truthy (result_suggestions r)
      then subheader "Security Recommendations"
           :: map suggestion_box (result_suggestions r)
      else [])
  ++ [card_close].
Proof.
  intros password r. unfold first_column, second_column.
  change (truthy password) with true. cbv iota. fold r.
  generalize (result_suggestions r) (result_criteria r) (result_entropy r)
    (result_score r).
  intros sugg crit e s. destruct (result_strength r) as [t cl]. reflexivity.
Qed.

Lemma shown_suggestions_map (l : list string) :
  shown_suggestions (map suggestion_box l) = l.
Proof.
  unfold shown_suggestions.
  rewrite (flat_map_map_single _ _ (fun s => s)) by reflexivity. apply map_id.
Qed.

Lemma columns_show (U : unicode_data) (c : char) (rest : str) :
  let password := c :: rest in
  let r := analyze_password U password in
  let page := first_column U password ++ second_column U password in
  shown_gauges page = [create_gauge (result_score r)] /\
  shown_metrics page =
    [("Entropy (bits)", one_decimal (result_entropy r));
     ("Length", int_value (len password));
     ("Score (0-100)", int_value (result_score r));
     ("Unique Chars", int_value (len (set password)))]%string /\
  shown_checks page =
    [("Length", criteria.length (result_criteria r));
     ("Uppercase", criteria.uppercase (result_criteria r));
     ("Lowercase", criteria.lowercase (result_criteria r));
     ("Digits", criteria.digits (result_criteria r));
     ("Special", criteria.special (result_criteria r))]%string /\
  shown_suggestions page = result_suggestions r /\
  (In "Security Recommendations"%string (shown_subheaders page) <->
   result_suggestions r <> []).
Proof.
  intros password r page. subst page.
  pose proof (columns_of_nonempty U c rest) as E. cbv zeta in E.
  fold password in E. fold r in E. rewrite E. clear E.
  generalize (result_suggestions r) (result_criteria r) (result_entropy r)
    (result_score r) (result_strength r) (len password) (len (set password)).
  intros sugg crit e s st n d.
  unfold shown_gauges, shown_metrics, shown_checks, shown_subheaders.
  rewrite !flat_map_app.
  split; [|split; [|split; [|split]]].
  - destruct sugg; cbn [truthy flat_map app];
      rewrite ?flat_map_map_nil by reflexivity; reflexivity.
  - destruct sugg; cbn [truthy flat_map app];
      rewrite ?flat_map_map_nil by reflexivity; reflexivity.
  - destruct sugg; cbn [truthy flat_map app];
      rewrite ?flat_map_map_nil by reflexivity; reflexivity.
  - unfold shown_suggestions at 1. rewrite !flat_map_app.
    destruct sugg as [|m sugg]; [reflexivity|].
    cbn [truthy flat_map app].
    change (flat_map _ (map suggestion_box sugg))
      with (shown_suggestions (map suggestion_box sugg)).
    now rewrite shown_suggestions_map, app_nil_r.
  - destruct sugg as [|m sugg]; cbn [truthy flat_map app];
      rewrite ?flat_map_map_nil by reflexivity.
    + split; [|intros H; now contradiction H].
      intros H. repeat (destruct H as [H | H]; [discriminate H|]). contradiction.
    + split; [intros _; discriminate|]. intros _. right. right. now left.
Qed.

(** X14. One run of the page shows an analysis exactly when the text input is
    not empty. It then shows one gauge, drawn for the score; the four metrics
    entropy, length, score and unique characters, with 1 <= unique <= length;
    the five criteria in the order Length, Uppercase, Lowercase, Digits,
    Special; and one box per suggestion, in the order of the analysis, under
    a Security Recommendations heading that appears only when there is a
    suggestion. With an empty input none of these is shown. *)
Theorem main_shows_analysis
  (U : unicode_data) (source : nat -> nat) (w : widgets) (k : nat) :
  exists page,
    fst (main U source w k) = Returned page /\
    (text_input w = [] ->
       shown_gauges page = [] /\ shown_metrics page = [] /\
       shown_checks page = [] /\ shown_suggestions page = [] /\
       shown_subheaders page = []) /\
    (text_input w <> [] ->
       let password := text_input w in
       let r := analyze_password U password in
       shown_gauges page = [create_gauge (result_score r)] /\
       shown_metrics page =
         [("Entropy (bits)", one_decimal (result_entropy r));
          ("Length", int_value (len password));
          ("Score (0-100)", int_value (result_score r));
          ("Unique Chars", int_value (len (set password)))]%string /\
       1 <= len (set password) <= len password /\
       shown_checks page =
         [("Length", criteria.length (result_criteria r));
          ("Uppercase", criteria.uppercase (result_criteria r));
          ("Lowercase", criteria.lowercase (result_criteria r));
          ("Digits", criteria.digits (result_criteria r));
          ("Special", criteria.special (result_criteria r))]%string /\
       shown_suggestions page = result_suggestions r /\
       (In "Security Recommendations"%string (shown_subheaders page) <->
        result_suggestions r <> [])).
Proof.
  destruct (main_page U source w k) as [side [_ [Hmain Hside]]].
  exists ([stylesheet; page_title; page_subtitle] ++ side
          ++ first_column U (text_input w) ++ second_column U (text_input w)).
  split; [rewrite Hmain; reflexivity|].
  assert (shown_gauges side = [] /\ shown_metrics side = [] /\
          shown_checks side = [] /\ shown_suggestions side = [] /\
          shown_subheaders side = []) as (Sg & Sm & Sc & Ss & Sh).
  { destruct Hside as [[_ ->] | [_ [p [-> _]]]]; repeat split. }
  clear Hmain Hside.
  set (static := [stylesheet; page_title; page_subtitle]).
  assert (forall cols, shown_gauges (static ++ side ++ cols) = shown_gauges cols) as Hg
    by (intros; unfold shown_gauges in *; now rewrite !flat_map_app, Sg).
  assert (forall cols, shown_metrics (static ++ side ++ cols) = shown_metrics cols) as Hm
    by (intros; unfold shown_metrics in *; now rewrite !flat_map_app, Sm).
  assert (forall cols, shown_checks (static ++ side ++ cols) = shown_checks cols) as Hc
    by (intros; unfold shown_checks in *; now rewrite !flat_map_app, Sc).
  assert (forall cols, shown_suggestions (static ++ side ++ cols) = shown_suggestions cols)
    as Hs by (intros; unfold shown_suggestions in *; now rewrite !flat_map_app, Ss).
  assert (forall cols, shown_subheaders (static ++ side ++ cols) = shown_subheaders cols)
    as Hh by (intros; unfold shown_subheaders in *; now rewrite !flat_map_app, Sh).
  rewrite Hg, Hm, Hc, Hs, Hh. clear Hg Hm Hc Hs Hh Sg Sm Sc Ss Sh static side.
  destruct (text_input w) as [|c rest].
  - split; [intros _; repeat split | intros H; contradiction].
  - split; [intros H; discriminate H|]. intros _. cbv zeta.
    destruct (columns_show U c rest) as (Cg & Cm & Cc & Cs & Ch).
    split; [exact Cg|]. split; [exact Cm|]. split.
    { split; [|apply len_set_le].
      assert (set (c :: rest) <> []) as Hne by (apply set_nonempty; discriminate).
      unfold len. destruct (set (c :: rest)); [contradiction|].
      cbn [List.length]. lia. }
    split; [exact Cc|]. split; [exact Cs | exact Ch].
Qed.

Lemma main_shows_analysis_witness :
  exists page,
    fst (main ascii_only (fun i => i)
           {| slider := 12; checkbox := true; button := false;
              text_input := codes "admin" |} 0%nat) = Returned page /\
    shown_suggestions page =
      result_suggestions (analyze_password ascii_only (codes "admin")).
Proof.
  destruct (main_shows_analysis ascii_only (fun i => i)
              {| slider := 12; checkbox := true; button := false;
                 text_input := codes "admin" |} 0%nat)
    as [page [Hpage [_ Hshown]]].
  exists page. split; [exact Hpage|].
  apply Hshown. discriminate.
Defined.
